(** * GP22 time-to-digital converter driver: shadow register file and codec

    Shallow embedding of the dual-channel driver (the [GP22] class whose
    [setExpectedHits] takes a [Channel]) together with the statements of its
    specification.

    Conventions of the embedding:
    - [uint8_t], [uint16_t], [int8_t] values are integers in [Z]; every
      assignment to a variable of such a type writes its wrap-around out
      ([uint8], [uint16], [int8]).  Arithmetic inside an expression is done
      on [int], as the integral promotions of C++ prescribe; apart from the
      shifts of [getConfig], which need the 32-bit [int] of the target, no
      expression of the driver leaves the range of a 16-bit [int].
    - [_config] is the 7x4 byte array, a list of rows; [rd] and [wr] are
      the indexed read and write.
    - The object is threaded explicitly: a member function that mutates
      [this] is a function from [GP22] to [GP22].
    - The serial bus is an external collaborator: a call that reads from it
      takes the bytes the bus answered as arguments.
    - [float] is kept abstract ([FloatOps]): the statements about the
      conversion factor hold for whatever arithmetic the target provides.
      Two instances are given, exact rationals and IEEE single precision
      with round-to-nearest-even. *)

From Stdlib Require Import ZArith List Bool Lia QArith.
Import ListNotations.
Local Open Scope Z_scope.

(** ** Fixed-width integers *)

Definition uint8 (z : Z) : Z := z mod 256.
Definition uint16 (z : Z) : Z := z mod 65536.
Definition int8 (z : Z) : Z := (z + 128) mod 256 - 128.

Definition is_byte (z : Z) : bool := (0 <=? z) && (z <? 256).
Definition is_word (z : Z) : bool := (0 <=? z) && (z <? 65536).
Definition is_int8 (z : Z) : bool := (-128 <=? z) && (z <? 128).

(** ** The Arduino bit macros, applied to a [uint8_t] lvalue

    [bitSet(value, bit)] is [value |= (1UL << bit)],
    [bitClear(value, bit)] is [value &= ~(1UL << bit)] with a 32-bit
    [unsigned long], and [bitWrite(value, bit, b)] is
    [b ? bitSet(value, bit) : bitClear(value, bit)]. *)

Definition ulong_not (z : Z) : Z := Z.lxor 4294967295 z.

Definition bitSet (value bit : Z) : Z := uint8 (Z.lor value (Z.shiftl 1 bit)).
Definition bitClear (value bit : Z) : Z :=
  uint8 (Z.land value (ulong_not (Z.shiftl 1 bit))).
Definition bitWrite (value bit bitvalue : Z) : Z :=
  if bitvalue =? 0 then bitClear value bit else bitSet value bit.

(** ** The register file *)

Definition Config := list (list Z).

Fixpoint upd {A : Type} (n : nat) (x : A) (l : list A) : list A :=
  match l, n with
  | [], _ => []
  | _ :: t, O => x :: t
  | h :: t, S k => h :: upd k x t
  end.

(** [c[i][j]] *)
Definition rd (c : Config) (i j : nat) : Z := nth j (nth i c []) 0.

(** [c[i][j] = v] *)
Definition wr (c : Config) (i j : nat) (v : Z) : Config :=
  upd i (upd j v (nth i c [])) c.

Definition wf_row (r : list Z) : bool :=
  (length r =? 4)%nat && forallb is_byte r.

Definition wf_config (c : Config) : bool :=
  (length c =? 7)%nat && forallb wf_row c.

(** Default contents of [_config] (member initialiser in the class). *)
Definition default_config : Config :=
  [ [0xF3; 0x07; 0x68; 0x00];
    [0x21; 0x42; 0x00; 0x00];
    [0x20; 0x00; 0x00; 0x00];
    [0x20; 0x00; 0x00; 0x00];
    [0x20; 0x00; 0x00; 0x00];
    [0x40; 0x00; 0x00; 0x00];
    [0x40; 0x20; 0x60; 0x00] ].

(** ** The 32-to-8-bit union

    [union FourByte { uint32_t bit32; uint16_t bit16[2]; uint8_t bit8[4]; }]
    on the little-endian targets of the driver: [bit8[0]] is the least
    significant byte of [bit32], [bit16[0]] covers [bit8[0..1]] and
    [bit16[1]] covers [bit8[2..3]]. *)

Record FourByte : Type := mkFourByte
  { bit8_0 : Z; bit8_1 : Z; bit8_2 : Z; bit8_3 : Z }.

Definition FourByte_zero : FourByte := mkFourByte 0 0 0 0.

Definition bit8 (d : FourByte) (k : nat) : Z :=
  match k with
  | 0%nat => bit8_0 d
  | 1%nat => bit8_1 d
  | 2%nat => bit8_2 d
  | _ => bit8_3 d
  end.

Definition set_bit8 (d : FourByte) (k : nat) (v : Z) : FourByte :=
  match k with
  | 0%nat => mkFourByte (uint8 v) (bit8_1 d) (bit8_2 d) (bit8_3 d)
  | 1%nat => mkFourByte (bit8_0 d) (uint8 v) (bit8_2 d) (bit8_3 d)
  | 2%nat => mkFourByte (bit8_0 d) (bit8_1 d) (uint8 v) (bit8_3 d)
  | _ => mkFourByte (bit8_0 d) (bit8_1 d) (bit8_2 d) (uint8 v)
  end.

Definition bit16 (d : FourByte) (k : nat) : Z :=
  match k with
  | 0%nat => bit8_0 d + 256 * bit8_1 d
  | _ => bit8_2 d + 256 * bit8_3 d
  end.

Definition set_bit16 (d : FourByte) (k : nat) (v : Z) : FourByte :=
  match k with
  | 0%nat => mkFourByte (uint16 v mod 256) (uint16 v / 256) (bit8_2 d) (bit8_3 d)
  | _ => mkFourByte (bit8_0 d) (bit8_1 d) (uint16 v mod 256) (uint16 v / 256)
  end.

Definition bit32 (d : FourByte) : Z :=
  bit8_0 d + 256 * bit8_1 d + 65536 * bit8_2 d + 16777216 * bit8_3 d.

(** ** Channels and ALU instructions *)

Inductive Channel : Type := CH1 | CH2.

Record ALUInstruction : Type := mkALUInstruction
  { id : Z; hit1Op : Z; hit2Op : Z }.

(** ** Floating point, as far as the driver uses it *)

Class FloatOps (F : Type) : Type := mkFloatOps
  { f_lit : Q -> F;          (* a literal or constant expression, as a float *)
    f_of_int : Z -> F;       (* conversion of an integer to float *)
    f_mul : F -> F -> F }.   (* float multiplication *)

(** Exact arithmetic on the rationals as an instance of the float interface. *)
#[export] Instance Q_FloatOps : FloatOps Q :=
  mkFloatOps Q (fun q => q) inject_Z Qmult.

(** IEEE 754 round-to-nearest-even of a rational to [prec] significant bits,
    for values in the normal range (no overflow, no subnormals): the
    significand [n/d / 2^e] is scaled into [2^(prec-1), 2^prec), rounded to
    the nearest integer with ties to even, and scaled back. *)
Definition round_pos (prec : Z) (n d : positive) : Q :=
  let l := Z.log2 (Zpos n) - Z.log2 (Zpos d) in
  let scaled (e : Z) : Z * Z :=
    if e <? 0 then (Zpos n * 2 ^ (- e), Zpos d) else (Zpos n, Zpos d * 2 ^ e) in
  let e0 := l - (prec - 1) in
  let e := if fst (scaled e0) / snd (scaled e0) <? 2 ^ (prec - 1)
           then e0 - 1 else e0 in
  let N := fst (scaled e) in
  let D := snd (scaled e) in
  let m := N / D in
  let r := N mod D in
  let m' := if 2 * r <? D then m
            else if D <? 2 * r then m + 1
            else if Z.even m then m else m + 1 in
  if e <? 0 then Qred (m' # Z.to_pos (2 ^ (- e))) else (m' * 2 ^ e) # 1.

Definition round_nearest_even (prec : Z) (q : Q) : Q :=
  match Qnum q with
  | 0 => 0
  | Zpos n => round_pos prec n (Qden q)
  | Zneg n => Qopp (round_pos prec n (Qden q))
  end.

(** Single-precision arithmetic as the driver uses it: a constant expression
    is evaluated in double precision and narrowed to [float]; integers are
    converted and products are rounded to 24 bits. *)
Definition binary32_ops : FloatOps Q :=
  mkFloatOps Q
    (fun q => round_nearest_even 24 (round_nearest_even 53 q))
    (fun z => round_nearest_even 24 (inject_Z z))
    (fun a b => round_nearest_even 24 (Qmult a b)).

(** ** The serial bus

    The SPI library is an external collaborator.  A run of the driver leaves
    a log of the library calls it made; the byte the peripheral shifts out
    during a transfer is given by a [Device], a function of the log so far.
    [Bus A] is a computation that talks to the bus and returns an [A]. *)

Definition int32 (z : Z) : Z := (z + 2147483648) mod 4294967296 - 2147483648.

Inductive SPIDataMode : Type := SPI_MODE0 | SPI_MODE1 | SPI_MODE2 | SPI_MODE3.
Inductive BitOrder : Type := LSBFIRST | MSBFIRST.
Inductive SPITransferMode : Type := SPI_CONTINUE | SPI_LAST.

Inductive Event : Type :=
| SPI_begin (pin : Z)
| SPI_setClockDivider (pin divider : Z)
| SPI_setDataMode (pin : Z) (mode : SPIDataMode)
| SPI_setBitOrder (pin : Z) (order : BitOrder)
| SPI_transferred (pin data : Z) (mode : SPITransferMode).

Definition Log := list Event.
Definition Device := Log -> Z.
Definition Bus (A : Type) : Type := Device -> Log -> A * Log.

Definition ret {A : Type} (a : A) : Bus A := fun _ l => (a, l).

Definition bind {A B : Type} (m : Bus A) (k : A -> Bus B) : Bus B :=
  fun d l => let (a, l') := m d l in k a d l'.

Notation "x <- m ;; k" := (bind m (fun x => k))
  (at level 61, m at next level, right associativity).
Notation "m ;;; k" := (bind m (fun _ => k))
  (at level 61, right associativity).

Definition emit (e : Event) : Bus unit := fun _ l => (tt, l ++ [e]).

(** [SPI.transfer(pin, data, mode)]: sends one byte and returns the byte
    received meanwhile. *)
Definition SPI_transfer (pin data : Z) (mode : SPITransferMode) : Bus Z :=
  fun d l => (uint8 (d l), l ++ [SPI_transferred pin (uint8 data) mode]).

(** [for (...) body(i)] over the indices of [l]. *)
Fixpoint for_each {A : Type} (l : list A) (body : A -> Bus unit) : Bus unit :=
  match l with
  | [] => ret tt
  | i :: rest => body i ;;; for_each rest body
  end.

(** How a 32-bit register value and its opcode go over the wire: five
    transfers in one chip-select frame, most significant byte first. *)
Definition write_frame (pin opcode value : Z) : Log :=
  [ SPI_transferred pin opcode SPI_CONTINUE;
    SPI_transferred pin (Z.land (Z.shiftr value 24) 0xFF) SPI_CONTINUE;
    SPI_transferred pin (Z.land (Z.shiftr value 16) 0xFF) SPI_CONTINUE;
    SPI_transferred pin (Z.land (Z.shiftr value 8) 0xFF) SPI_CONTINUE;
    SPI_transferred pin (Z.land value 0xFF) SPI_LAST ].

(** ** The legacy single-channel driver

    The functions of the older [GP22] class that differ from the
    dual-channel one.  The class has no [_status] and no
    [_conversionFactor]. *)

Module Legacy.

Record GP22 : Type := mkGP22
  { _ssPin : Z;
    _config : Config }.

Definition default_config : Config :=
  [ [0xF3; 0x07; 0x68; 0x00];
    [0x21; 0x42; 0x00; 0x00];
    [0x20; 0x00; 0x00; 0x00];
    [0x20; 0x00; 0x00; 0x00];
    [0x10; 0x00; 0x00; 0x00];
    [0x40; 0x00; 0x00; 0x00];
    [0x40; 0x20; 0x60; 0x00] ].

Definition GP22_new (slaveSelectPin : Z) : GP22 :=
  mkGP22 slaveSelectPin default_config.

Definition cfg (g : GP22) (i j : nat) : Z := rd (_config g) i j.
Definition set_cfg (g : GP22) (i j : nat) (v : Z) : GP22 :=
  mkGP22 (_ssPin g) (wr (_config g) i j v).

Definition wf (g : GP22) : bool := wf_config (_config g).

Definition setExpectedHits (g : GP22) (hits : Z) : GP22 :=
  let configPiece := cfg g 1 1 in
  let configPiece :=
    match hits with
    | 2 =>
        let configPiece := bitClear configPiece 0 in
        let configPiece := bitSet configPiece 1 in
        bitClear configPiece 2
    | 3 =>
        let configPiece := bitSet configPiece 0 in
        let configPiece := bitSet configPiece 1 in
        bitClear configPiece 2
    | 4 =>
        let configPiece := bitClear configPiece 0 in
        let configPiece := bitClear configPiece 1 in
        bitSet configPiece 2
    | _ => configPiece
    end in
  set_cfg g 1 1 configPiece.

Definition getExpectedHits (g : GP22) : Z :=
  uint8 (Z.land (cfg g 1 1) 0x07).

Definition isDoubleRes (g : GP22) : bool := Z.land (cfg g 6 2) 0x10 >? 0.
Definition isQuadRes (g : GP22) : bool := Z.land (cfg g 6 2) 0x20 >? 0.
Definition isSingleRes (g : GP22) : bool :=
  negb (isDoubleRes g) && negb (isQuadRes g).

(** [setDoubleRes] and [setQuadRes] call each other.  Each body is written
    with the other function as a parameter; the knot is tied below. *)
Definition setDoubleRes_body (setQuadRes : GP22 -> bool -> GP22)
    (g : GP22) (on : bool) : GP22 :=
  let configPiece := cfg g 6 2 in
  if on then
    let configPiece := bitSet configPiece 4 in
    let g := setQuadRes g false in
    set_cfg g 6 2 configPiece
  else
    let configPiece := bitClear configPiece 4 in
    set_cfg g 6 2 configPiece.

Definition setQuadRes_body (setDoubleRes : GP22 -> bool -> GP22)
    (g : GP22) (on : bool) : GP22 :=
  let configPiece := cfg g 6 2 in
  if on then
    let configPiece := bitSet configPiece 5 in
    let g := setDoubleRes g false in
    set_cfg g 6 2 configPiece
  else
    let configPiece := bitClear configPiece 5 in
    set_cfg g 6 2 configPiece.

(** A call with [on = true] calls the other setter with [false], and a call
    with [false] calls nothing: the calls nest two deep at most, and the
    innermost parameter is never called ([setDoubleRes_unfold],
    [setQuadRes_unfold]). *)
Definition setDoubleRes (g : GP22) (on : bool) : GP22 :=
  setDoubleRes_body (setQuadRes_body (fun g _ => g)) g on.

Definition setQuadRes (g : GP22) (on : bool) : GP22 :=
  setQuadRes_body (setDoubleRes_body (fun g _ => g)) g on.

Definition setSingleRes (g : GP22) (on : bool) : GP22 :=
  let configPiece := cfg g 6 2 in
  let g :=
    if on then
      let g := setDoubleRes g false in
      setQuadRes g false
    else g in
  set_cfg g 6 2 configPiece.

Definition setAutoCalcOn (g : GP22) (on : bool) : GP22 :=
  let configPiece := cfg g 3 0 in
  let configPiece :=
    if on then bitSet configPiece 0 else bitClear configPiece 0 in
  set_cfg g 3 0 configPiece.

Definition isAutoCalcOn (g : GP22) : bool := Z.land (cfg g 3 0) 0x80 >? 0.

Definition setFirstWaveMode (g : GP22) (on : bool) : GP22 :=
  let configPiece := cfg g 3 0 in
  let configPiece := bitSet configPiece 6 in
  set_cfg g 4 0 configPiece.

Definition isFirstWaveMode (g : GP22) : bool := Z.land (cfg g 3 0) 0x40 >? 0.

End Legacy.

(** ** The driver object *)

Section Driver.

Context {F : Type} {FO : FloatOps F}.

Record GP22 : Type := mkGP22
  { _ssPin : Z;
    _status : Z;
    _conversionFactor : F;
    _config : Config }.

Definition with_status (g : GP22) (s : Z) : GP22 :=
  mkGP22 (_ssPin g) s (_conversionFactor g) (_config g).

Definition with_factor (g : GP22) (f : F) : GP22 :=
  mkGP22 (_ssPin g) (_status g) f (_config g).

Definition with_config (g : GP22) (c : Config) : GP22 :=
  mkGP22 (_ssPin g) (_status g) (_conversionFactor g) c.

(** [_config[i][j]] and [_config[i][j] = v] on the object. *)
Definition cfg (g : GP22) (i j : nat) : Z := rd (_config g) i j.
Definition set_cfg (g : GP22) (i j : nat) (v : Z) : GP22 :=
  with_config g (wr (_config g) i j v).

(** *** Transport: the value a transfer returns, given the bytes answered *)

Definition transfer1B (opcode byte1 : Z) (r1 : Z) : Z :=
  let data := FourByte_zero in
  let data := set_bit8 data 0 r1 in
  bit8 data 0.

Definition transfer2B (opcode byte1 byte2 : Z) (r1 r2 : Z) : Z :=
  let data := FourByte_zero in
  let data := set_bit8 data 1 r1 in
  let data := set_bit8 data 0 r2 in
  bit16 data 0.

(** *** Status *)

Definition readStatus (g : GP22) (r1 r2 : Z) : GP22 :=
  with_status g (transfer2B 0xB4 0x00 0x00 r1 r2).

Definition timedOut (g : GP22) : bool :=
  Z.land (_status g) 0x0600 >? 0.

Definition getMeasuredHits (g : GP22) (channel : Channel) : Z :=
  match channel with
  | CH1 => uint8 (Z.shiftr (Z.land (_status g) 0x0038) 3)
  | CH2 => uint8 (Z.shiftr (Z.land (_status g) 0x01C0) 6)
  end.

Definition getReadPointer (g : GP22) : Z :=
  uint8 (Z.land (_status g) 0x0007).

Definition testComms (g : GP22) (r1 : Z) : bool :=
  let test := transfer1B 0xB5 0 r1 in
  if test =? cfg g 1 0 then true else false.

(** *** Conversion *)

Definition getClkPreDiv (g : GP22) : Z :=
  let divRaw := uint8 (Z.shiftr (Z.land (cfg g 0 1) 0x30) 4) in
  let div := 0 in
  match divRaw with
  | 0 => 1
  | 1 => 2
  | 2 | 3 => 4
  | _ => div
  end.

Definition updateConversionFactor (g : GP22) : GP22 :=
  let qConv := f_lit (1 # 65536) in        (* pow(2.0, -16) *)
  let tRef := f_lit (1 # 4000000) in       (* (1.0) / (4000000.0) *)
  let timeBase := f_lit (1000000 # 1) in   (* 1000000.0 *)
  let N := f_of_int (getClkPreDiv g) in
  with_factor g (f_mul (f_mul (f_mul tRef qConv) timeBase) N).

Definition measConv (g : GP22) (input : Z) : F :=
  f_mul (f_of_int input) (_conversionFactor g).

(** The constructor.  [_status] is not initialised by the class and
    [_conversionFactor] is assigned in the body; [status0] and [factor0]
    stand for what the two members hold before. *)
Definition GP22_new (slaveSelectPin : Z) (status0 : Z) (factor0 : F) : GP22 :=
  let g := mkGP22 slaveSelectPin status0 factor0 default_config in
  updateConversionFactor g.

(** [getConfig]: the seven registers, each combined into 32 bits. *)
Definition getConfig (g : GP22) : list Z :=
  map (fun i => (Z.shiftl (cfg g i 0) 24 + Z.shiftl (cfg g i 1) 16
                 + Z.shiftl (cfg g i 2) 8 + cfg g i 3) mod 4294967296)
      (seq 0 7).

(** *** Resolution *)

Definition isDoubleRes (g : GP22) : bool := Z.land (cfg g 6 2) 0x10 >? 0.
Definition isQuadRes (g : GP22) : bool := Z.land (cfg g 6 2) 0x20 >? 0.
Definition isSingleRes (g : GP22) : bool :=
  negb (isDoubleRes g) && negb (isQuadRes g).

Definition setSingleRes (g : GP22) : GP22 :=
  let configPiece := cfg g 6 2 in
  let configPiece := bitClear configPiece 4 in
  let configPiece := bitClear configPiece 5 in
  set_cfg g 6 2 configPiece.

Definition setDoubleRes (g : GP22) : GP22 :=
  let configPiece := cfg g 6 2 in
  let configPiece := bitSet configPiece 4 in
  let configPiece := bitClear configPiece 5 in
  set_cfg g 6 2 configPiece.

(** *** Measurement mode *)

Definition getMeasurementMode (g : GP22) : Z :=
  uint8 (Z.b2z (Z.land (cfg g 0 2) 0x08 >? 0)).

Definition setMeasurementMode (g : GP22) (mode : Z) : GP22 :=
  let configPiece := cfg g 0 2 in
  if mode =? 1 then
    let configPiece := bitClear configPiece 3 in
    let g := if isQuadRes g then setDoubleRes g else g in
    set_cfg g 0 2 configPiece
  else if mode =? 2 then
    let configPiece := bitSet configPiece 3 in
    set_cfg g 0 2 configPiece
  else
    set_cfg g 0 2 configPiece.

Definition setQuadRes (g : GP22) : GP22 :=
  if getMeasurementMode g =? 2 then
    let configPiece := cfg g 6 2 in
    let configPiece := bitSet configPiece 5 in
    let configPiece := bitClear configPiece 4 in
    set_cfg g 6 2 configPiece
  else g.

Definition setClkPreDiv (g : GP22) (div : Z) : GP22 :=
  let configPiece := cfg g 0 1 in
  let configPiece :=
    if (div =? 1) || (div =? 2) || (div =? 4) then
      let configPiece := bitClear configPiece 4 in
      let configPiece := bitClear configPiece 5 in
      if div =? 2 then bitSet configPiece 4
      else if div =? 4 then bitSet configPiece 5
      else configPiece
    else configPiece in
  let g := set_cfg g 0 1 configPiece in
  updateConversionFactor g.

Definition setAutoCalcOn (g : GP22) (on : bool) : GP22 :=
  let configPiece := cfg g 3 0 in
  let configPiece :=
    if on then bitSet configPiece 7 else bitClear configPiece 7 in
  set_cfg g 3 0 configPiece.

Definition isAutoCalcOn (g : GP22) : bool := Z.land (cfg g 3 0) 0x80 >? 0.

(** *** Expected hits *)

Definition setExpectedHits (g : GP22) (channel : Channel) (hits : Z) : GP22 :=
  let configPiece := cfg g 1 1 in
  let configPiece :=
    (* hits >= 0 & hits <= 4 *)
    if negb (Z.land (Z.b2z (hits >=? 0)) (Z.b2z (hits <=? 4)) =? 0) then
      match channel with
      | CH1 =>
          let configPiece := bitClear configPiece 0 in
          let configPiece := bitClear configPiece 1 in
          let configPiece := bitClear configPiece 2 in
          uint8 (configPiece + hits)
      | CH2 =>
          let configPiece := bitClear configPiece 3 in
          let configPiece := bitClear configPiece 4 in
          let configPiece := bitClear configPiece 5 in
          uint8 (configPiece + Z.shiftl hits 3)
      end
    else configPiece in
  set_cfg g 1 1 configPiece.

Definition getExpectedHits (g : GP22) (channel : Channel) : Z :=
  match channel with
  | CH1 => uint8 (Z.land (cfg g 1 1) 0x07)
  | CH2 => uint8 (Z.shiftr (Z.land (cfg g 1 1) 0x38) 3)
  end.

(** *** ALU operators *)

Definition defineHit1Op (g : GP22) (op : Z) : GP22 :=
  let configPiece := cfg g 1 0 in
  (* for (int i = 0; i < 4; i++) bitWrite(configPiece, i, 0); *)
  let configPiece :=
    fold_left (fun v i => bitWrite v i 0) [0; 1; 2; 3] configPiece in
  let configPiece := uint8 (configPiece + op) in
  set_cfg g 1 0 configPiece.

Definition defineHit2Op (g : GP22) (op : Z) : GP22 :=
  let configPiece := cfg g 1 0 in
  (* for (int i = 4; i < 8; i++) bitWrite(configPiece, i, 0); *)
  let configPiece :=
    fold_left (fun v i => bitWrite v i 0) [4; 5; 6; 7] configPiece in
  let configPiece := uint8 (configPiece + Z.shiftl op 4) in
  set_cfg g 1 0 configPiece.

Definition getHit1Op (g : GP22) : Z := uint8 (Z.land (cfg g 1 0) 0x0F).
Definition getHit2Op (g : GP22) : Z :=
  uint8 (Z.shiftr (Z.land (cfg g 1 0) 0xF0) 4).

(** The transfer of register 1 that ends [updateALUInstruction] does not
    touch the object. *)
Definition updateALUInstruction (g : GP22) (instruction : ALUInstruction) : GP22 :=
  let g := defineHit1Op g (hit1Op instruction) in
  let g := defineHit2Op g (hit2Op instruction) in
  g.

(** *** Edge sensitivity *)

Definition setEdgeSensitivity (g : GP22) (start stop1 stop2 : Z) : GP22 :=
  let reg0p2 := cfg g 0 2 in
  let reg2p0 := cfg g 2 0 in
  let reg0p2 :=
    if (start =? 0) || (start =? 1) then bitWrite reg0p2 0 start else reg0p2 in
  let '(reg0p2, reg2p0) :=
    if (stop1 =? 0) || (stop1 =? 1) then (bitWrite reg0p2 1 stop1, reg2p0)
    else if stop1 =? 2 then (bitClear reg0p2 1, bitSet reg2p0 3)
    else (reg0p2, reg2p0) in
  let '(reg0p2, reg2p0) :=
    if (stop2 =? 0) || (stop2 =? 1) then (bitWrite reg0p2 2 stop2, reg2p0)
    else if stop2 =? 2 then (bitClear reg0p2 2, bitSet reg2p0 4)
    else (reg0p2, reg2p0) in
  let g := set_cfg g 0 2 reg0p2 in
  set_cfg g 2 0 reg2p0.

(** *** First wave mode *)

Definition setFirstWaveMode (g : GP22) (on : bool) : GP22 :=
  let configPiece := cfg g 3 0 in
  let configPiece := bitSet configPiece 6 in
  set_cfg g 3 0 configPiece.

Definition isFirstWaveMode (g : GP22) : bool := Z.land (cfg g 3 0) 0x40 >? 0.

(** The local [configPiece] as [setFirstWaveDelays] leaves it at its last
    statement. *)
Definition firstWaveDelays_piece (g : GP22) (stop1 stop2 stop3 : Z) : FourByte :=
  let configPiece := FourByte_zero in
  let configPiece := set_bit8 configPiece 3 (cfg g 3 0) in
  let configPiece := set_bit8 configPiece 2 (cfg g 3 1) in
  let configPiece := set_bit8 configPiece 1 (cfg g 3 2) in
  let configPiece := set_bit8 configPiece 0 (cfg g 3 3) in
  (* DELREL3 *)
  let topBytes := bit16 configPiece 1 in
  let topBytes := uint16 (Z.lxor topBytes (Z.land topBytes 0x03F0)) in
  let topBytes := uint16 (topBytes + Z.shiftl (uint16 stop3) 4) in
  let configPiece := set_bit16 configPiece 1 topBytes in
  (* DELREL2 *)
  let middleBytes :=
    uint16 (Z.shiftl (uint16 (bit8 configPiece 2)) 8 + bit8 configPiece 1) in
  let middleBytes := uint16 (Z.lxor middleBytes (Z.land middleBytes 0x0FC0)) in
  let middleBytes := uint16 (middleBytes + Z.shiftl (uint16 stop2) 6) in
  let configPiece := set_bit8 configPiece 1 (uint8 middleBytes) in
  let configPiece := set_bit8 configPiece 2 (uint8 (Z.shiftr middleBytes 8)) in
  (* DELREL1 *)
  let byte1 := bit8 configPiece 1 in
  let byte1 := uint8 (Z.lxor byte1 (Z.land byte1 0x3F)) in
  let byte1 := uint8 (byte1 + stop1) in
  set_bit8 configPiece 1 byte1.

(** [setFirstWaveDelays] works on the local [configPiece] only; the body has
    no assignment to [_config] or to any other member.  The legacy
    single-channel driver has the same body. *)
Definition setFirstWaveDelays (g : GP22) (stop1 stop2 stop3 : Z) : GP22 :=
  let configPiece := firstWaveDelays_piece g stop1 stop2 stop3 in
  g.

Definition setPulseWidthMeasOn (g : GP22) (on : bool) : GP22 :=
  let configPiece := cfg g 4 1 in
  let configPiece :=
    if on then bitClear configPiece 0 else bitSet configPiece 0 in
  set_cfg g 4 1 configPiece.

Definition isPulseWidthMeasOn (g : GP22) : bool :=
  Z.land (cfg g 4 1) 0x01 =? 0.

Definition setFirstWaveRisingEdge (g : GP22) (on : bool) : GP22 :=
  let configPiece := cfg g 4 2 in
  let configPiece :=
    if on then bitClear configPiece 7 else bitSet configPiece 7 in
  set_cfg g 4 2 configPiece.

Definition isFirstWaveRisingEdge (g : GP22) : bool :=
  Z.land (cfg g 4 2) 0x80 >? 0.

Definition setFirstWaveOffset (g : GP22) (offset : Z) : GP22 :=
  let configPiece := cfg g 4 2 in
  let '(offset, configPiece) :=
    if offset >? 15 then
      (int8 (offset - 20), bitClear (bitSet configPiece 6) 5)
    else if offset <? -16 then
      (int8 (offset + 20), bitClear (bitSet configPiece 5) 6)
    else
      (offset, bitClear (bitClear configPiece 5) 6) in
  let configPiece := uint8 (Z.lxor configPiece (Z.land configPiece 0x1F)) in
  let configPiece :=
    if (offset >? 0) && (offset <=? 15) then
      uint8 (configPiece + offset)
    else if (offset <? 0) && (offset >=? -16) then
      let twosComp := 31 in
      let twosComp := uint8 (twosComp + (offset + 1)) in
      uint8 (configPiece + twosComp)
    else configPiece in
  set_cfg g 4 2 configPiece.

Definition getFirstWaveOffset (g : GP22) : Z :=
  let configPiece := cfg g 4 2 in
  let twosComp := uint8 (Z.land configPiece 0x1F) in
  let offset := 0 in
  let offset :=
    if twosComp >? 15 then
      (* ~ acts on the operand promoted to int *)
      int8 (-1 * (Z.lnot twosComp + 1))
    else
      int8 twosComp in
  if Z.land configPiece 0x20 >? 0 then int8 (offset - 20)
  else if Z.land configPiece 0x40 >? 0 then int8 (offset + 20)
  else offset.

(** ** Public calls that can change the object, and the states they reach *)

Inductive Call : Type :=
| CreadStatus (r1 r2 : Z)
| CsetExpectedHits (channel : Channel) (hits : Z)
| CsetSingleRes
| CsetDoubleRes
| CsetQuadRes
| CsetMeasurementMode (mode : Z)
| CsetClkPreDiv (div : Z)
| CsetAutoCalcOn (on : bool)
| CdefineHit1Op (op : Z)
| CdefineHit2Op (op : Z)
| CupdateALUInstruction (instruction : ALUInstruction)
| CsetEdgeSensitivity (start stop1 stop2 : Z)
| CsetFirstWaveMode (on : bool)
| CsetFirstWaveDelays (stop1 stop2 stop3 : Z)
| CsetPulseWidthMeasOn (on : bool)
| CsetFirstWaveRisingEdge (on : bool)
| CsetFirstWaveOffset (offset : Z).

(** The arguments fit their C++ parameter types. *)
Definition args_ok (c : Call) : bool :=
  match c with
  | CreadStatus r1 r2 => is_byte r1 && is_byte r2
  | CsetExpectedHits _ hits => is_byte hits
  | CsetMeasurementMode mode => is_byte mode
  | CsetClkPreDiv div => is_byte div
  | CdefineHit1Op op | CdefineHit2Op op => is_byte op
  | CupdateALUInstruction i => is_byte (hit1Op i) && is_byte (hit2Op i)
  | CsetEdgeSensitivity start stop1 stop2 =>
      is_byte start && is_byte stop1 && is_byte stop2
  | CsetFirstWaveDelays stop1 stop2 stop3 =>
      is_byte stop1 && is_byte stop2 && is_byte stop3
  | CsetFirstWaveOffset offset => is_int8 offset
  | _ => true
  end.

Definition exec (g : GP22) (c : Call) : GP22 :=
  match c with
  | CreadStatus r1 r2 => readStatus g r1 r2
  | CsetExpectedHits channel hits => setExpectedHits g channel hits
  | CsetSingleRes => setSingleRes g
  | CsetDoubleRes => setDoubleRes g
  | CsetQuadRes => setQuadRes g
  | CsetMeasurementMode mode => setMeasurementMode g mode
  | CsetClkPreDiv div => setClkPreDiv g div
  | CsetAutoCalcOn on => setAutoCalcOn g on
  | CdefineHit1Op op => defineHit1Op g op
  | CdefineHit2Op op => defineHit2Op g op
  | CupdateALUInstruction i => updateALUInstruction g i
  | CsetEdgeSensitivity start stop1 stop2 =>
      setEdgeSensitivity g start stop1 stop2
  | CsetFirstWaveMode on => setFirstWaveMode g on
  | CsetFirstWaveDelays stop1 stop2 stop3 =>
      setFirstWaveDelays g stop1 stop2 stop3
  | CsetPulseWidthMeasOn on => setPulseWidthMeasOn g on
  | CsetFirstWaveRisingEdge on => setFirstWaveRisingEdge g on
  | CsetFirstWaveOffset offset => setFirstWaveOffset g offset
  end.

Inductive reachable : GP22 -> Prop :=
| reach_new : forall slaveSelectPin status0 factor0,
    is_word status0 = true ->
    reachable (GP22_new slaveSelectPin status0 factor0)
| reach_call : forall g c,
    reachable g -> args_ok c = true -> reachable (exec g c).

(** A well-formed object: a 7x4 array of bytes and a 16-bit status. *)
Definition wf (g : GP22) : bool :=
  wf_config (_config g) && is_word (_status g).

(** The conversion factor that belongs to the divider in [_config]. *)
Definition factor_for (g : GP22) : F :=
  f_mul (f_mul (f_mul (f_lit (1 # 4000000)) (f_lit (1 # 65536)))
               (f_lit (1000000 # 1)))
        (f_of_int (getClkPreDiv g)).

(** Bit fields of a 32-bit register value, as the data sheet numbers them. *)
Definition field (reg : Z) (lo width : Z) : Z :=
  Z.land (Z.shiftr reg lo) (Z.ones width).

(** Register [i] of the shadow file as one 32-bit value. *)
Definition reg32 (g : GP22) (i : nat) : Z := nth i (getConfig g) 0.


(** Exactly one of three flags is up. *)
Definition exactly_one (a b c : bool) : bool :=
  (a && negb b && negb c) || (negb a && b && negb c)
  || (negb a && negb b && c).

Definition other (channel : Channel) : Channel :=
  match channel with CH1 => CH2 | CH2 => CH1 end.

(** What [setExpectedHits] followed by [getExpectedHits] does to the byte
    [b] of [_config[1][1]], checked for both channels: the channel written
    reads [h], the other one reads as before. *)
Definition hits_ok (b h : Z) : bool :=
  let v1 := uint8 (bitClear (bitClear (bitClear b 0) 1) 2 + h) in
  let v2 := uint8 (bitClear (bitClear (bitClear b 3) 4) 5 + Z.shiftl h 3) in
  (uint8 (Z.land v1 0x07) =? h)
  && (uint8 (Z.shiftr (Z.land v1 0x38) 3) =? uint8 (Z.shiftr (Z.land b 0x38) 3))
  && (uint8 (Z.shiftr (Z.land v2 0x38) 3) =? h)
  && (uint8 (Z.land v2 0x07) =? uint8 (Z.land b 0x07)).

(** Bounded search, used to decide statements over all bytes. *)
Fixpoint all_below (n : nat) (p : Z -> bool) : bool :=
  match n with
  | O => true
  | S k => p (Z.of_nat k) && all_below k p
  end.

Definition all_between (lo : Z) (n : nat) (p : Z -> bool) : bool :=
  all_below n (fun k => p (lo + k)).

(** The cells of [_config] a call may assign to. *)
Definition touches (c : Call) : list (nat * nat) :=
  match c with
  | CreadStatus _ _ => []
  | CsetExpectedHits _ _ => [(1, 1)]
  | CsetSingleRes | CsetDoubleRes | CsetQuadRes => [(6, 2)]
  | CsetMeasurementMode _ => [(0, 2); (6, 2)]
  | CsetClkPreDiv _ => [(0, 1)]
  | CsetAutoCalcOn _ => [(3, 0)]
  | CdefineHit1Op _ | CdefineHit2Op _ | CupdateALUInstruction _ => [(1, 0)]
  | CsetEdgeSensitivity _ _ _ => [(0, 2); (2, 0)]
  | CsetFirstWaveMode _ => [(3, 0)]
  | CsetFirstWaveDelays _ _ _ => []
  | CsetPulseWidthMeasOn _ => [(4, 1)]
  | CsetFirstWaveRisingEdge _ | CsetFirstWaveOffset _ => [(4, 2)]
  end%nat.

(** The double and quad bits are never set together. *)
Definition res_exclusive (g : GP22) : Prop :=
  isDoubleRes g && isQuadRes g = false.

(** A state whose [_config[4][2]] is [b]; the other members are arbitrary. *)
Definition probe (b : Z) : GP22 :=
  mkGP22 0 0 (f_lit 0) (wr default_config 4 2 b).

(** The value [setFirstWaveOffset] hands to the 5-bit field for [offset]. *)
Definition offset_core (offset : Z) : Z :=
  if offset >? 15 then offset - 20
  else if offset <? -16 then offset + 20
  else offset.

(** What [getFirstWaveOffset] returns after [setFirstWaveOffset offset]. *)
Definition offset_readback (offset : Z) : Z :=
  if offset_core offset <? 0 then offset + 32 else offset.

Definition offset_readback_ok (b : Z) : bool :=
  all_between (-36) 72
    (fun o => getFirstWaveOffset (setFirstWaveOffset (probe b) o)
              =? offset_readback o).

(** ** The member functions that talk to the bus *)

Definition transfer1B_bus (g : GP22) (opcode byte1 : Z) : Bus Z :=
  let data := FourByte_zero in
  SPI_transfer (_ssPin g) opcode SPI_CONTINUE ;;;
  r1 <- SPI_transfer (_ssPin g) byte1 SPI_LAST ;;
  let data := set_bit8 data 0 r1 in
  ret (bit8 data 0).

Definition transfer2B_bus (g : GP22) (opcode byte1 byte2 : Z) : Bus Z :=
  let data := FourByte_zero in
  SPI_transfer (_ssPin g) opcode SPI_CONTINUE ;;;
  r1 <- SPI_transfer (_ssPin g) byte1 SPI_CONTINUE ;;
  let data := set_bit8 data 1 r1 in
  r2 <- SPI_transfer (_ssPin g) byte2 SPI_LAST ;;
  let data := set_bit8 data 0 r2 in
  ret (bit16 data 0).

Definition transfer4B_bus (g : GP22) (opcode byte1 byte2 byte3 byte4 : Z)
  : Bus Z :=
  let data := FourByte_zero in
  SPI_transfer (_ssPin g) opcode SPI_CONTINUE ;;;
  r1 <- SPI_transfer (_ssPin g) byte1 SPI_CONTINUE ;;
  let data := set_bit8 data 3 r1 in
  r2 <- SPI_transfer (_ssPin g) byte2 SPI_CONTINUE ;;
  let data := set_bit8 data 2 r2 in
  r3 <- SPI_transfer (_ssPin g) byte3 SPI_CONTINUE ;;
  let data := set_bit8 data 1 r3 in
  r4 <- SPI_transfer (_ssPin g) byte4 SPI_LAST ;;
  let data := set_bit8 data 0 r4 in
  ret (bit32 data).

Definition updateConfig (g : GP22) : Bus unit :=
  for_each (seq 0 7)
    (fun i =>
       transfer4B_bus g (uint8 (0x80 + Z.of_nat i))
         (cfg g i 0) (cfg g i 1) (cfg g i 2) (cfg g i 3) ;;;
       ret tt).

Definition begin (g : GP22) : Bus unit :=
  emit (SPI_begin (_ssPin g)) ;;;
  emit (SPI_setClockDivider (_ssPin g) 6) ;;;
  emit (SPI_setDataMode (_ssPin g) SPI_MODE1) ;;;
  emit (SPI_setBitOrder (_ssPin g) MSBFIRST) ;;;
  SPI_transfer (_ssPin g) 0x50 SPI_LAST ;;;
  updateConfig g.

Definition measure (g : GP22) : Bus unit :=
  SPI_transfer (_ssPin g) 0x70 SPI_LAST ;;;
  ret tt.

Definition readStatus_bus (g : GP22) : Bus GP22 :=
  s <- transfer2B_bus g 0xB4 0x00 0x00 ;;
  ret (with_status g s).

Definition readResult (g : GP22) (resultRegister : Z) : Bus Z :=
  if (resultRegister <? 4) && (resultRegister >=? 0) then
    let readCode := uint8 (0xB0 + resultRegister) in
    v <- transfer4B_bus g readCode 0 0 0 0 ;;
    ret (int32 v)
  else
    ret 0.

Definition testComms_bus (g : GP22) : Bus bool :=
  test <- transfer1B_bus g 0xB5 0 ;;
  ret (if test =? cfg g 1 0 then true else false).

Definition updateALUInstruction_bus (g : GP22) (instruction : ALUInstruction)
  : Bus GP22 :=
  let g := defineHit1Op g (hit1Op instruction) in
  let g := defineHit2Op g (hit2Op instruction) in
  transfer4B_bus g 0x81 (cfg g 1 0) (cfg g 1 1) (cfg g 1 2) (cfg g 1 3) ;;;
  ret g.

(** The frames a full configuration push puts on the wire. *)
Definition config_frames (g : GP22) : Log :=
  flat_map (fun i => write_frame (_ssPin g) (0x80 + Z.of_nat i) (reg32 g i))
           (seq 0 7).

(** The public operations that use the bus. *)
Inductive BusCall : Type :=
| Bbegin
| Bmeasure
| BreadStatus
| BreadResult (resultRegister : Z)
| BtestComms
| BupdateConfig
| BupdateALUInstruction (instruction : ALUInstruction).

Definition exec_bus (g : GP22) (c : BusCall) : Bus GP22 :=
  match c with
  | Bbegin => begin g ;;; ret g
  | Bmeasure => measure g ;;; ret g
  | BreadStatus => readStatus_bus g
  | BreadResult resultRegister => readResult g resultRegister ;;; ret g
  | BtestComms => testComms_bus g ;;; ret g
  | BupdateConfig => updateConfig g ;;; ret g
  | BupdateALUInstruction instruction => updateALUInstruction_bus g instruction
  end.

(** Chip select is released: the last transfer, if any, was not made with
    [SPI_CONTINUE]. *)
Definition released (l : Log) : bool :=
  match rev l with
  | SPI_transferred _ _ SPI_CONTINUE :: _ => false
  | _ => true
  end.

(** Every event of [l] names [pin]. *)
Definition on_pin (pin : Z) (l : Log) : bool :=
  forallb (fun e =>
             match e with
             | SPI_begin p | SPI_setClockDivider p _ | SPI_setDataMode p _
             | SPI_setBitOrder p _ | SPI_transferred p _ _ => p =? pin
             end) l.

(** * Properties *)

(** ** Lists and the register file *)

Lemma upd_length (A : Type) (n : nat) (x : A) (l : list A) :
  length (upd n x l) = length l.
Proof.
  revert n; induction l as [|h t IH]; intros [|n]; simpl; auto.
Qed.

Lemma nth_upd_same (A : Type) (n : nat) (x d : A) (l : list A) :
  (n < length l)%nat -> nth n (upd n x l) d = x.
Proof.
  revert n; induction l as [|h t IH]; intros [|n] H; simpl in *; try lia; auto.
  apply IH; lia.
Qed.

Lemma nth_upd_other (A : Type) (n m : nat) (x d : A) (l : list A) :
  n <> m -> nth m (upd n x l) d = nth m l d.
Proof.
  revert n m; induction l as [|h t IH]; intros [|n] [|m] H; simpl; auto.
  - congruence.
Qed.

Lemma upd_nth_id (A : Type) (n : nat) (d : A) (l : list A) :
  upd n (nth n l d) l = l.
Proof.
  revert n; induction l as [|h t IH]; intros [|n]; simpl; auto.
  f_equal; apply IH.
Qed.

Lemma upd_overflow (A : Type) (n : nat) (x : A) (l : list A) :
  (length l <= n)%nat -> upd n x l = l.
Proof.
  revert n; induction l as [|h t IH]; intros [|n] H; simpl in *; auto; try lia.
  f_equal; apply IH; lia.
Qed.

Lemma forallb_upd (A : Type) (p : A -> bool) (n : nat) (x : A) (l : list A) :
  forallb p l = true -> p x = true -> forallb p (upd n x l) = true.
Proof.
  revert n; induction l as [|h t IH]; intros [|n] Hl Hx; simpl in *; auto;
    apply andb_true_iff in Hl as [Hh Ht]; apply andb_true_iff; auto.
Qed.

Lemma forallb_nth (A : Type) (p : A -> bool) (n : nat) (d : A) (l : list A) :
  forallb p l = true -> p d = true -> p (nth n l d) = true.
Proof.
  revert n; induction l as [|h t IH]; intros [|n] Hl Hd; simpl in *; auto;
    apply andb_true_iff in Hl as [Hh Ht]; auto.
Qed.

Lemma wr_rd_id (c : Config) (i j : nat) : wr c i j (rd c i j) = c.
Proof.
  unfold wr, rd. rewrite upd_nth_id. apply upd_nth_id.
Qed.

Lemma rd_wr_other (c : Config) (i j i' j' : nat) (v : Z) :
  i <> i' \/ j <> j' -> rd (wr c i j v) i' j' = rd c i' j'.
Proof.
  intros H. unfold rd, wr.
  destruct (Nat.eq_dec i i') as [<-|Hi].
  - destruct H as [H|H]; [congruence|].
    destruct (Nat.lt_ge_cases i (length c)) as [Hlt|Hge].
    + rewrite nth_upd_same by assumption. now apply nth_upd_other.
    + assert (E : nth i c [] = []) by (apply nth_overflow; assumption).
      rewrite E. simpl. rewrite upd_overflow by assumption.
      rewrite E. reflexivity.
  - now rewrite nth_upd_other.
Qed.

Lemma forallb_nth_in (A : Type) (p : A -> bool) (n : nat) (d : A) (l : list A) :
  forallb p l = true -> (n < length l)%nat -> p (nth n l d) = true.
Proof.
  revert n; induction l as [|h t IH]; intros [|n] Hl Hn; simpl in *; try lia;
    apply andb_true_iff in Hl as [Hh Ht]; auto.
  apply IH; [assumption | lia].
Qed.

Lemma wf_config_length (c : Config) :
  wf_config c = true -> length c = 7%nat.
Proof.
  unfold wf_config. intros H. apply andb_true_iff in H as [H _].
  now apply Nat.eqb_eq.
Qed.

Lemma wf_config_row (c : Config) (i : nat) :
  wf_config c = true -> (i < 7)%nat -> wf_row (nth i c []) = true.
Proof.
  intros H Hi. pose proof (wf_config_length c H) as L.
  unfold wf_config in H. apply andb_true_iff in H as [_ H].
  apply forallb_nth_in; [assumption | lia].
Qed.

Lemma wf_row_length (r : list Z) : wf_row r = true -> length r = 4%nat.
Proof.
  unfold wf_row. intros H. apply andb_true_iff in H as [H _].
  now apply Nat.eqb_eq.
Qed.

Lemma rd_wr_same (c : Config) (i j : nat) (v : Z) :
  wf_config c = true -> (i < 7)%nat -> (j < 4)%nat ->
  rd (wr c i j v) i j = v.
Proof.
  intros H Hi Hj. unfold rd, wr.
  rewrite nth_upd_same by (rewrite (wf_config_length c H); assumption).
  apply nth_upd_same.
  rewrite (wf_row_length _ (wf_config_row c i H Hi)). assumption.
Qed.

Lemma is_byte_rd (c : Config) (i j : nat) :
  wf_config c = true -> is_byte (rd c i j) = true.
Proof.
  intros H. unfold rd.
  destruct (Nat.lt_ge_cases i 7) as [Hi|Hi].
  - pose proof (wf_config_row c i H Hi) as R.
    unfold wf_row in R. apply andb_true_iff in R as [_ R].
    now apply forallb_nth.
  - rewrite (nth_overflow c) by (rewrite (wf_config_length c H); assumption).
    now destruct j.
Qed.

Lemma wf_config_wr (c : Config) (i j : nat) (v : Z) :
  wf_config c = true -> is_byte v = true -> wf_config (wr c i j v) = true.
Proof.
  intros H Hv. unfold wr.
  destruct (Nat.lt_ge_cases i 7) as [Hi|Hi].
  - pose proof (wf_config_row c i H Hi) as R.
    pose proof (wf_config_length c H) as L.
    unfold wf_config in *. apply andb_true_iff in H as [_ H].
    apply andb_true_iff; split.
    + rewrite upd_length, L. reflexivity.
    + apply forallb_upd; [assumption|].
      unfold wf_row in *. apply andb_true_iff in R as [R1 R2].
      apply andb_true_iff; split.
      * now rewrite upd_length.
      * now apply forallb_upd.
  - rewrite upd_overflow; [assumption|].
    rewrite (wf_config_length c H). assumption.
Qed.

(** ** Bytes *)

Lemma is_byte_iff (z : Z) : is_byte z = true <-> 0 <= z < 256.
Proof. unfold is_byte. rewrite andb_true_iff, Z.leb_le, Z.ltb_lt. tauto. Qed.

Lemma is_word_iff (z : Z) : is_word z = true <-> 0 <= z < 65536.
Proof. unfold is_word. rewrite andb_true_iff, Z.leb_le, Z.ltb_lt. tauto. Qed.

Lemma is_int8_iff (z : Z) : is_int8 z = true <-> -128 <= z < 128.
Proof. unfold is_int8. rewrite andb_true_iff, Z.leb_le, Z.ltb_lt. tauto. Qed.

Lemma is_byte_uint8 (z : Z) : is_byte (uint8 z) = true.
Proof. apply is_byte_iff. unfold uint8. apply Z.mod_pos_bound. lia. Qed.

Lemma is_byte_bitSet (v n : Z) : is_byte (bitSet v n) = true.
Proof. apply is_byte_uint8. Qed.

Lemma is_byte_bitClear (v n : Z) : is_byte (bitClear v n) = true.
Proof. apply is_byte_uint8. Qed.

Lemma is_byte_bitWrite (v n b : Z) : is_byte (bitWrite v n b) = true.
Proof.
  unfold bitWrite. destruct (b =? 0); [apply is_byte_bitClear | apply is_byte_bitSet].
Qed.

Lemma uint8_small (z : Z) : 0 <= z < 256 -> uint8 z = z.
Proof. intros H. unfold uint8. now apply Z.mod_small. Qed.

Lemma all_below_spec (n : nat) (p : Z -> bool) :
  all_below n p = true -> forall z, 0 <= z < Z.of_nat n -> p z = true.
Proof.
  induction n as [|k IH]; simpl; intros H z Hz; [lia|].
  apply andb_true_iff in H as [Hk Hr].
  destruct (Z.eq_dec z (Z.of_nat k)) as [->|Hne]; [assumption|].
  apply IH; [assumption | lia].
Qed.

Lemma all_between_spec (lo : Z) (n : nat) (p : Z -> bool) :
  all_between lo n p = true ->
  forall z, lo <= z < lo + Z.of_nat n -> p z = true.
Proof.
  unfold all_between. intros H z Hz.
  replace z with (lo + (z - lo)) by lia.
  apply (all_below_spec n (fun k => p (lo + k)) H). lia.
Qed.

(** Every byte satisfies a decidable property that holds of 0..255. *)
Lemma byte_cases (p : Z -> bool) :
  all_below 256 p = true -> forall b, is_byte b = true -> p b = true.
Proof.
  intros H b Hb. apply (all_below_spec 256 p H).
  apply is_byte_iff in Hb. simpl. lia.
Qed.

Create HintDb bytes.
#[local] Hint Resolve is_byte_uint8 is_byte_bitSet is_byte_bitClear
  is_byte_bitWrite is_byte_rd wf_config_wr : bytes.

(** ** Well-formedness is preserved by every call *)

Lemma is_byte_cfg (g : GP22) (i j : nat) :
  wf g = true -> is_byte (cfg g i j) = true.
Proof.
  unfold wf, cfg. intros H. apply andb_true_iff in H as [H _].
  now apply is_byte_rd.
Qed.

Lemma wf_set_cfg (g : GP22) (i j : nat) (v : Z) :
  wf g = true -> is_byte v = true -> wf (set_cfg g i j v) = true.
Proof.
  unfold wf, set_cfg. simpl. intros H Hv.
  apply andb_true_iff in H as [H1 H2]. apply andb_true_iff; split; auto with bytes.
Qed.

Lemma wf_with_factor (g : GP22) (f : F) : wf (with_factor g f) = wf g.
Proof. reflexivity. Qed.

Lemma is_byte_fold_bitWrite (l : list Z) (v : Z) :
  is_byte v = true ->
  is_byte (fold_left (fun v i => bitWrite v i 0) l v) = true.
Proof.
  revert v; induction l as [|i l IH]; simpl; intros v Hv; [assumption|].
  apply IH. apply is_byte_bitWrite.
Qed.

#[local] Hint Resolve is_byte_cfg wf_set_cfg is_byte_fold_bitWrite : bytes.

Ltac split_ifs :=
  repeat match goal with
         | |- context [if ?b then _ else _] => destruct b
         | |- context [match ?ch with CH1 => _ | CH2 => _ end] => destruct ch
         end.

Lemma wf_setSingleRes (g : GP22) : wf g = true -> wf (setSingleRes g) = true.
Proof. intros; unfold setSingleRes; auto with bytes. Qed.

Lemma wf_setDoubleRes (g : GP22) : wf g = true -> wf (setDoubleRes g) = true.
Proof. intros; unfold setDoubleRes; auto with bytes. Qed.

Lemma wf_setQuadRes (g : GP22) : wf g = true -> wf (setQuadRes g) = true.
Proof. intros; unfold setQuadRes; split_ifs; auto with bytes. Qed.

Lemma wf_updateConversionFactor (g : GP22) :
  wf g = true -> wf (updateConversionFactor g) = true.
Proof. intros; unfold updateConversionFactor; assumption. Qed.

Lemma wf_readStatus (g : GP22) (r1 r2 : Z) :
  wf g = true -> wf (readStatus g r1 r2) = true.
Proof.
  unfold wf, readStatus. simpl. intros H.
  apply andb_true_iff in H as [H _]. rewrite H. simpl.
  apply is_word_iff.
  change (transfer2B 0xB4 0x00 0x00 r1 r2) with (uint8 r2 + 256 * uint8 r1).
  pose proof (proj1 (is_byte_iff _) (is_byte_uint8 r1)).
  pose proof (proj1 (is_byte_iff _) (is_byte_uint8 r2)). lia.
Qed.

Lemma wf_exec (g : GP22) (c : Call) : wf g = true -> wf (exec g c) = true.
Proof.
  intros H. destruct c; simpl;
    auto using wf_setSingleRes, wf_setDoubleRes, wf_setQuadRes, wf_readStatus.
  - unfold setExpectedHits; split_ifs; auto with bytes.
  - unfold setMeasurementMode; split_ifs;
      auto using wf_setDoubleRes with bytes.
  - unfold setClkPreDiv. apply wf_updateConversionFactor.
    split_ifs; auto with bytes.
  - unfold setAutoCalcOn; split_ifs; auto with bytes.
  - unfold defineHit1Op; auto with bytes.
  - unfold defineHit2Op; auto with bytes.
  - unfold updateALUInstruction, defineHit2Op, defineHit1Op; auto 6 with bytes.
  - unfold setEdgeSensitivity; split_ifs; auto 6 with bytes.
  - unfold setFirstWaveMode; auto with bytes.
  - unfold setPulseWidthMeasOn; split_ifs; auto with bytes.
  - unfold setFirstWaveRisingEdge; split_ifs; auto with bytes.
  - unfold setFirstWaveOffset; split_ifs; auto with bytes.
Qed.

Lemma wf_GP22_new (pin status0 : Z) (factor0 : F) :
  is_word status0 = true -> wf (GP22_new pin status0 factor0) = true.
Proof.
  intros H. unfold GP22_new. apply wf_updateConversionFactor.
  unfold wf. simpl. assumption.
Qed.

Lemma reachable_wf (g : GP22) : reachable g -> wf g = true.
Proof.
  induction 1 as [pin s0 f0 H | g c _ IH _].
  - now apply wf_GP22_new.
  - now apply wf_exec.
Qed.

(** ** Reading back what was written, and the footprint of each call *)

Lemma cfg_set_cfg_same (g : GP22) (i j : nat) (v : Z) :
  wf g = true -> (i < 7)%nat -> (j < 4)%nat -> cfg (set_cfg g i j v) i j = v.
Proof.
  unfold wf, cfg, set_cfg. simpl. intros H Hi Hj.
  apply andb_true_iff in H as [H _]. now apply rd_wr_same.
Qed.

Lemma cfg_set_cfg_other (g : GP22) (i j i' j' : nat) (v : Z) :
  i <> i' \/ j <> j' -> cfg (set_cfg g i j v) i' j' = cfg g i' j'.
Proof. unfold cfg, set_cfg. simpl. apply rd_wr_other. Qed.

Lemma set_cfg_id (g : GP22) (i j : nat) : set_cfg g i j (cfg g i j) = g.
Proof.
  unfold set_cfg, cfg, with_config. rewrite wr_rd_id. now destruct g.
Qed.

Lemma factor_set_cfg (g : GP22) (i j : nat) (v : Z) :
  _conversionFactor (set_cfg g i j v) = _conversionFactor g.
Proof. reflexivity. Qed.

Lemma not_in_cell (i j i' j' : nat) (l : list (nat * nat)) :
  ~ In (i', j') ((i, j) :: l) -> (i <> i' \/ j <> j') /\ ~ In (i', j') l.
Proof.
  simpl. intros H. split; [|tauto].
  destruct (Nat.eq_dec i i') as [->|]; [|now left].
  destruct (Nat.eq_dec j j') as [->|]; [|now right].
  exfalso; apply H; now left.
Qed.

Ltac frame_cells :=
  repeat match goal with
         | H : ~ In _ (_ :: _) |- _ =>
             apply not_in_cell in H; destruct H as [? H]
         end;
  rewrite ?cfg_set_cfg_other by assumption.

(** Frame property: a call leaves every cell outside its footprint alone. *)
Lemma exec_frame (g : GP22) (c : Call) (i j : nat) :
  ~ In (i, j) (touches c) -> cfg (exec g c) i j = cfg g i j.
Proof.
  intros H. destruct c; cbn [exec touches] in *; try reflexivity.
  - unfold setExpectedHits. now frame_cells.
  - unfold setSingleRes. now frame_cells.
  - unfold setDoubleRes. now frame_cells.
  - unfold setQuadRes. destruct (_ =? 2); now frame_cells.
  - unfold setMeasurementMode.
    destruct (mode =? 1); [|destruct (mode =? 2)]; frame_cells; try reflexivity.
    destruct (isQuadRes g); [|reflexivity].
    unfold setDoubleRes. now frame_cells.
  - unfold setClkPreDiv, updateConversionFactor, with_factor, cfg. simpl.
    fold (cfg g 0 1). apply not_in_cell in H as [H _].
    now apply rd_wr_other.
  - unfold setAutoCalcOn. now frame_cells.
  - unfold defineHit1Op. now frame_cells.
  - unfold defineHit2Op. now frame_cells.
  - unfold updateALUInstruction, defineHit2Op, defineHit1Op. now frame_cells.
  - unfold setEdgeSensitivity.
    repeat match goal with
           | |- context [let '(_, _) := ?e in _] => destruct e
           end.
    now frame_cells.
  - unfold setFirstWaveMode. now frame_cells.
  - unfold setPulseWidthMeasOn. now frame_cells.
  - unfold setFirstWaveRisingEdge. now frame_cells.
  - unfold setFirstWaveOffset.
    repeat match goal with
           | |- context [let '(_, _) := ?e in _] => destruct e
           end.
    now frame_cells.
Qed.

(** Only [setClkPreDiv] assigns to [_conversionFactor]. *)
Lemma exec_factor (g : GP22) (c : Call) :
  (forall div, c <> CsetClkPreDiv div) ->
  _conversionFactor (exec g c) = _conversionFactor g.
Proof.
  intros H. destruct c; simpl; try reflexivity.
  - unfold setQuadRes. now destruct (_ =? 2).
  - unfold setMeasurementMode.
    destruct (mode =? 1); [|destruct (mode =? 2)]; try reflexivity.
    now destruct (isQuadRes g).
  - now elim (H div).
  - unfold setEdgeSensitivity.
    repeat match goal with
           | |- context [let '(_, _) := ?e in _] => destruct e
           end.
    reflexivity.
  - unfold setFirstWaveOffset.
    repeat match goal with
           | |- context [let '(_, _) := ?e in _] => destruct e
           end.
    reflexivity.
Qed.

(** Decide a goal [p b = true] for every byte [b] by running [p] on 0..255. *)
Ltac check_bytes b Hb :=
  cbv zeta; revert b Hb;
  match goal with
  | |- forall b, is_byte b = true -> @?p b = true =>
      exact (byte_cases p ltac:(vm_compute; reflexivity))
  end.

(** ** Status decoder *)

Lemma land_low_bits (s n : Z) :
  0 <= n -> 0 <= Z.land s (Z.ones n) < 2 ^ n.
Proof.
  intros Hn. rewrite Z.land_ones by assumption.
  apply Z.mod_pos_bound. now apply Z.pow_pos_nonneg.
Qed.

Lemma status_readStatus (g : GP22) (s : Z) :
  is_word s = true -> _status (readStatus g (s / 256) (s mod 256)) = s.
Proof.
  intros H. apply is_word_iff in H.
  change (_status (readStatus g (s / 256) (s mod 256)))
    with (uint8 (s mod 256) + 256 * uint8 (s / 256)).
  unfold uint8. rewrite Z.mod_mod by lia.
  rewrite (Z.mod_small (s / 256)).
  - pose proof (Z.div_mod s 256). lia.
  - split; [apply Z.div_pos; lia | apply Z.div_lt_upper_bound; lia].
Qed.

(** C9: for every 16-bit status word [s] held after [readStatus],
    [timedOut] is true exactly when [s & 0x0600] is nonzero,
    [getMeasuredHits CH1] is [(s & 0x0038) >> 3], [getMeasuredHits CH2] is
    [(s & 0x01C0) >> 6] and [getReadPointer] is [s & 0x0007], each of the
    last three a value in 0..7. *)
Theorem C9_status_decode (g : GP22) (s : Z) :
  is_word s = true ->
  let g' := readStatus g (s / 256) (s mod 256) in
  _status g' = s /\
  (timedOut g' = true <-> Z.land s 0x0600 <> 0) /\
  getMeasuredHits g' CH1 = Z.shiftr (Z.land s 0x0038) 3 /\
  getMeasuredHits g' CH2 = Z.shiftr (Z.land s 0x01C0) 6 /\
  getReadPointer g' = Z.land s 0x0007 /\
  0 <= getMeasuredHits g' CH1 <= 7 /\
  0 <= getMeasuredHits g' CH2 <= 7 /\
  0 <= getReadPointer g' <= 7.
Proof.
  intros Hs g'. pose proof (status_readStatus g s Hs) as E. fold g' in E.
  unfold timedOut, getMeasuredHits, getReadPointer. rewrite E.
  apply is_word_iff in Hs.
  assert (H1 : 0 <= Z.shiftr (Z.land s 0x0038) 3 < 8).
  { rewrite Z.shiftr_land. change (Z.shiftr 0x0038 3) with (Z.ones 3).
    apply (land_low_bits _ 3). lia. }
  assert (H2 : 0 <= Z.shiftr (Z.land s 0x01C0) 6 < 8).
  { rewrite Z.shiftr_land. change (Z.shiftr 0x01C0 6) with (Z.ones 3).
    apply (land_low_bits _ 3). lia. }
  assert (H3 : 0 <= Z.land s 0x0007 < 8).
  { change 0x0007 with (Z.ones 3). apply (land_low_bits _ 3). lia. }
  rewrite !uint8_small by lia.
  assert (H4 : 0 <= Z.land s 0x0600) by (apply Z.land_nonneg; lia).
  split; [reflexivity|]. split.
  - rewrite Z.gtb_ltb, Z.ltb_lt. lia.
  - repeat split; lia.
Qed.

(** ** Resolution and measurement mode *)

Lemma getMeasurementMode_bool (g : GP22) :
  getMeasurementMode g = 0 \/ getMeasurementMode g = 1.
Proof.
  unfold getMeasurementMode. destruct (_ >? 0); [right | left]; reflexivity.
Qed.

Lemma setQuadRes_id (g : GP22) : setQuadRes g = g.
Proof.
  unfold setQuadRes.
  destruct (getMeasurementMode_bool g) as [-> | ->]; reflexivity.
Qed.

(** C5: [setQuadRes] leaves the whole register file (indeed the whole
    object) unchanged in every state: [getMeasurementMode] only returns 0 or
    1, so the comparison with 2 in the guard never succeeds and the quad bit
    is never set by this setter. *)
Theorem C5_setQuadRes_no_effect (g : GP22) :
  (getMeasurementMode g = 0 \/ getMeasurementMode g = 1) /\
  (getMeasurementMode g =? 2) = false /\
  setQuadRes g = g /\
  _config (setQuadRes g) = _config g /\
  isQuadRes (setQuadRes g) = isQuadRes g.
Proof.
  pose proof (getMeasurementMode_bool g) as M.
  assert (G : (getMeasurementMode g =? 2) = false)
    by (apply Z.eqb_neq; lia).
  rewrite (setQuadRes_id g). auto.
Qed.

Lemma single_bits (b : Z) :
  is_byte b = true ->
  negb (Z.land (bitClear (bitClear b 4) 5) 0x10 >? 0)
  && negb (Z.land (bitClear (bitClear b 4) 5) 0x20 >? 0) = true.
Proof. intros Hb. check_bytes b Hb. Qed.

Lemma double_bits (b : Z) :
  is_byte b = true ->
  (Z.land (bitClear (bitSet b 4) 5) 0x10 >? 0)
  && negb (Z.land (bitClear (bitSet b 4) 5) 0x20 >? 0) = true.
Proof. intros Hb. check_bytes b Hb. Qed.

Lemma res_setSingleRes (g : GP22) :
  wf g = true ->
  isDoubleRes (setSingleRes g) = false /\ isQuadRes (setSingleRes g) = false.
Proof.
  intros H. unfold isDoubleRes, isQuadRes, setSingleRes.
  rewrite cfg_set_cfg_same by (assumption || lia).
  pose proof (single_bits _ (is_byte_cfg g 6 2 H)) as B.
  apply andb_true_iff in B as [B1 B2].
  now apply negb_true_iff in B1, B2.
Qed.

Lemma res_setDoubleRes (g : GP22) :
  wf g = true ->
  isDoubleRes (setDoubleRes g) = true /\ isQuadRes (setDoubleRes g) = false.
Proof.
  intros H. unfold isDoubleRes, isQuadRes, setDoubleRes.
  rewrite cfg_set_cfg_same by (assumption || lia).
  pose proof (double_bits _ (is_byte_cfg g 6 2 H)) as B.
  apply andb_true_iff in B as [B1 B2].
  now apply negb_true_iff in B2.
Qed.

Lemma res_setMeasurementMode (g : GP22) (mode : Z) :
  cfg (setMeasurementMode g mode) 6 2 =
  if (mode =? 1) && isQuadRes g then cfg (setDoubleRes g) 6 2 else cfg g 6 2.
Proof.
  unfold setMeasurementMode.
  destruct (mode =? 1); [|destruct (mode =? 2)]; simpl;
    rewrite cfg_set_cfg_other by (left; discriminate);
    try reflexivity.
  now destruct (isQuadRes g).
Qed.

Lemma res_exclusive_frame (g g' : GP22) :
  cfg g' 6 2 = cfg g 6 2 -> res_exclusive g -> res_exclusive g'.
Proof. unfold res_exclusive, isDoubleRes, isQuadRes. now intros ->. Qed.

Lemma res_exclusive_exec (g : GP22) (c : Call) :
  wf g = true -> res_exclusive g -> res_exclusive (exec g c).
Proof.
  intros W I.
  assert (S1 : res_exclusive (setSingleRes g)).
  { unfold res_exclusive. now destruct (res_setSingleRes g W) as [-> ->]. }
  assert (S2 : res_exclusive (setDoubleRes g)).
  { unfold res_exclusive. now destruct (res_setDoubleRes g W) as [-> ->]. }
  destruct c;
    try (apply (res_exclusive_frame g); [|assumption];
         apply exec_frame; cbn; intuition discriminate);
    cbn [exec]; try assumption.
  - now rewrite setQuadRes_id.
  - apply (res_exclusive_frame (if (mode =? 1) && isQuadRes g
                                then setDoubleRes g else g)).
    + rewrite res_setMeasurementMode. now destruct (_ && _).
    + now destruct (_ && _).
Qed.

Lemma res_exclusive_reachable (g : GP22) : reachable g -> res_exclusive g.
Proof.
  induction 1 as [pin s0 f0 H | g c R IH A].
  - reflexivity.
  - apply res_exclusive_exec; [now apply reachable_wf | assumption].
Qed.

(** C3: in every state reachable from the default by the public calls,
    exactly one of [isSingleRes], [isDoubleRes], [isQuadRes] is true;
    [setSingleRes] clears both the double and the quad bit; and [setQuadRes]
    followed by [setDoubleRes] leaves double active and quad inactive. *)
Theorem C3_resolution_exclusive (g : GP22) :
  reachable g ->
  exactly_one (isSingleRes g) (isDoubleRes g) (isQuadRes g) = true /\
  (isDoubleRes (setSingleRes g) = false /\
   isQuadRes (setSingleRes g) = false) /\
  (isDoubleRes (setDoubleRes (setQuadRes g)) = true /\
   isQuadRes (setDoubleRes (setQuadRes g)) = false).
Proof.
  intros R. pose proof (reachable_wf g R) as W.
  pose proof (res_exclusive_reachable g R) as I.
  split; [|split].
  - unfold res_exclusive in I. unfold isSingleRes.
    destruct (isDoubleRes g), (isQuadRes g); try reflexivity; discriminate I.
  - now apply res_setSingleRes.
  - rewrite setQuadRes_id. now apply res_setDoubleRes.
Qed.

(** C4: from any state in which [isQuadRes] holds, [setMeasurementMode 1]
    yields a state with [isDoubleRes] true and [isQuadRes] false. *)
Theorem C4_mode1_downgrades_quad (g : GP22) :
  wf g = true ->
  isQuadRes g = true ->
  isDoubleRes (setMeasurementMode g 1) = true /\
  isQuadRes (setMeasurementMode g 1) = false.
Proof.
  intros W Q. unfold isDoubleRes at 1, isQuadRes at 1.
  rewrite res_setMeasurementMode, Q. simpl.
  apply (res_setDoubleRes g W).
Qed.

(** ** First-wave mode *)

Lemma firstWaveMode_bits (b : Z) :
  is_byte b = true ->
  Z.testbit (bitSet b 6) 6 && (Z.land (bitSet b 6) 0x40 >? 0) = true.
Proof. intros Hb. check_bytes b Hb. Qed.

(** C10: [setFirstWaveMode] ignores its argument: for [true] and for [false]
    it sets bit 6 of [_config[3][0]], so [isFirstWaveMode] is true after
    either call and the setter cannot turn the mode off. *)
Theorem C10_setFirstWaveMode_ignores_argument (g : GP22) (on : bool) :
  wf g = true ->
  setFirstWaveMode g on = setFirstWaveMode g (negb on) /\
  cfg (setFirstWaveMode g on) 3 0 = bitSet (cfg g 3 0) 6 /\
  Z.testbit (cfg (setFirstWaveMode g on) 3 0) 6 = true /\
  isFirstWaveMode (setFirstWaveMode g on) = true /\
  isFirstWaveMode (setFirstWaveMode g false) = true.
Proof.
  intros W.
  assert (E : forall b, cfg (setFirstWaveMode g b) 3 0 = bitSet (cfg g 3 0) 6).
  { intros b. unfold setFirstWaveMode.
    now rewrite cfg_set_cfg_same by (assumption || lia). }
  pose proof (firstWaveMode_bits _ (is_byte_cfg g 3 0 W)) as B.
  apply andb_true_iff in B as [B1 B2].
  unfold isFirstWaveMode. rewrite !E. auto.
Qed.

(** ** Out-of-range arguments *)

(** C7: out-of-range arguments change no bit of the register file:
    [setExpectedHits] with [hits > 4] and [setClkPreDiv] with a divider
    other than 1, 2 and 4 leave [_config] as it was, in every state. *)
Theorem C7_out_of_range_ignored (g : GP22) :
  (forall channel hits,
      4 < hits -> _config (setExpectedHits g channel hits) = _config g) /\
  (forall div,
      div <> 1 -> div <> 2 -> div <> 4 ->
      _config (setClkPreDiv g div) = _config g).
Proof.
  split.
  - intros channel hits H. unfold setExpectedHits.
    replace (hits <=? 4) with false by (symmetry; apply Z.leb_gt; lia).
    rewrite Z.land_0_r. change (negb (0 =? 0)) with false.
    cbv beta iota zeta. now rewrite set_cfg_id.
  - intros div H1 H2 H4. unfold setClkPreDiv.
    apply Z.eqb_neq in H1, H2, H4. rewrite H1, H2, H4.
    cbn [orb]. cbv beta iota zeta. now rewrite set_cfg_id.
Qed.

(** ** Expected hits *)

Lemma hits_bits (b : Z) :
  is_byte b = true -> all_below 5 (fun h => hits_ok b h) = true.
Proof. intros Hb. check_bytes b Hb. Qed.

(** C8: for [hits] in 0..4 and either channel, [getExpectedHits] of that
    channel returns [hits] after [setExpectedHits], and [getExpectedHits] of
    the other channel returns what it returned before. *)
Theorem C8_expected_hits_roundtrip (g : GP22) (channel : Channel) (hits : Z) :
  wf g = true ->
  0 <= hits <= 4 ->
  getExpectedHits (setExpectedHits g channel hits) channel = hits /\
  getExpectedHits (setExpectedHits g channel hits) (other channel)
  = getExpectedHits g (other channel).
Proof.
  intros W H.
  pose proof (all_below_spec 5 _ (hits_bits _ (is_byte_cfg g 1 1 W)) hits) as B.
  simpl in B. specialize (B ltac:(lia)). unfold hits_ok in B.
  repeat (apply andb_true_iff in B; destruct B as [B ?]).
  repeat match goal with E : (_ =? _) = true |- _ => apply Z.eqb_eq in E end.
  unfold getExpectedHits, setExpectedHits.
  replace (hits >=? 0) with true by (symmetry; apply Z.geb_le; lia).
  replace (hits <=? 4) with true by (symmetry; apply Z.leb_le; lia).
  simpl negb. cbv iota.
  destruct channel; simpl other; cbv iota;
    rewrite cfg_set_cfg_same by (assumption || lia); split; assumption.
Qed.

(** ** Conversion factor *)

Lemma factor_for_frame (g g' : GP22) :
  cfg g' 0 1 = cfg g 0 1 -> factor_for g' = factor_for g.
Proof. unfold factor_for, getClkPreDiv. now intros ->. Qed.

Lemma factor_updateConversionFactor (g : GP22) :
  _conversionFactor (updateConversionFactor g)
  = factor_for (updateConversionFactor g).
Proof. reflexivity. Qed.

Lemma factor_setClkPreDiv (g : GP22) (div : Z) :
  _conversionFactor (setClkPreDiv g div) = factor_for (setClkPreDiv g div).
Proof. unfold setClkPreDiv. apply factor_updateConversionFactor. Qed.

Lemma factor_reachable (g : GP22) :
  reachable g -> _conversionFactor g = factor_for g.
Proof.
  induction 1 as [pin s0 f0 H | g c R IH A].
  - apply factor_updateConversionFactor.
  - destruct c;
      try (rewrite exec_factor by discriminate;
           rewrite (factor_for_frame g)
             by (apply exec_frame; cbn; intuition discriminate);
           exact IH).
    apply factor_setClkPreDiv.
Qed.

Lemma clkPreDiv_bits (b : Z) :
  is_byte b = true ->
  let clr := bitClear (bitClear b 4) 5 in
  (uint8 (Z.shiftr (Z.land clr 0x30) 4) =? 0)
  && (uint8 (Z.shiftr (Z.land (bitSet clr 4) 0x30) 4) =? 1)
  && (uint8 (Z.shiftr (Z.land (bitSet clr 5) 0x30) 4) =? 2) = true.
Proof. intros Hb. check_bytes b Hb. Qed.

Lemma getClkPreDiv_setClkPreDiv (g : GP22) (div : Z) :
  wf g = true ->
  div = 1 \/ div = 2 \/ div = 4 ->
  getClkPreDiv (setClkPreDiv g div) = div.
Proof.
  intros W H.
  pose proof (clkPreDiv_bits _ (is_byte_cfg g 0 1 W)) as B. simpl in B.
  repeat (apply andb_true_iff in B; destruct B as [B ?]).
  repeat match goal with E : (_ =? _) = true |- _ => apply Z.eqb_eq in E end.
  unfold getClkPreDiv, setClkPreDiv, updateConversionFactor.
  change (cfg (with_factor ?x ?f) 0 1) with (cfg x 0 1).
  destruct H as [-> | [-> | ->]]; cbn [Z.eqb Pos.eqb orb]; cbv beta iota zeta;
    rewrite cfg_set_cfg_same by (assumption || lia).
  - now rewrite B.
  - now replace (uint8 _) with 1.
  - now replace (uint8 _) with 2.
Qed.

Lemma clkPreDiv_values_bits (b : Z) :
  is_byte b = true ->
  (uint8 (Z.shiftr (Z.land b 0x30) 4) <? 4) = true.
Proof. intros Hb. check_bytes b Hb. Qed.

(** [getClkPreDiv] returns 1, 2 or 4, whatever the register holds. *)
Lemma getClkPreDiv_values (g : GP22) :
  wf g = true ->
  getClkPreDiv g = 1 \/ getClkPreDiv g = 2 \/ getClkPreDiv g = 4.
Proof.
  intros W. pose proof (clkPreDiv_values_bits _ (is_byte_cfg g 0 1 W)) as B.
  pose proof (is_byte_uint8 (Z.shiftr (Z.land (cfg g 0 1) 0x30) 4)) as L.
  apply Z.ltb_lt in B. apply is_byte_iff in L.
  unfold getClkPreDiv. cbv zeta.
  destruct (uint8 (Z.shiftr (Z.land (cfg g 0 1) 0x30) 4)) as [|[p|p|]|p];
    try (destruct p); auto; lia.
Qed.

(** C6: the cached conversion factor always is the product
    [tRef * qConv * timeBase * N] of 1/4,000,000, 2^-16, 1,000,000 and
    [getClkPreDiv ()]; the constructor and [setClkPreDiv] recompute it;
    [measConv raw] is [raw] times this factor; and [setClkPreDiv] with a
    value other than 1, 2, 4 leaves the divider bits and the factor as they
    were. *)
Theorem C6_conversion_factor (g : GP22) :
  reachable g ->
  _conversionFactor g = factor_for g /\
  (forall raw, measConv g raw = f_mul (f_of_int raw) (factor_for g)) /\
  (forall pin status0 factor0,
      _conversionFactor (GP22_new pin status0 factor0)
      = factor_for (GP22_new pin status0 factor0)) /\
  (forall div,
      _conversionFactor (setClkPreDiv g div) = factor_for (setClkPreDiv g div)) /\
  (forall div,
      div = 1 \/ div = 2 \/ div = 4 ->
      getClkPreDiv (setClkPreDiv g div) = div) /\
  (forall div,
      div <> 1 -> div <> 2 -> div <> 4 ->
      cfg (setClkPreDiv g div) 0 1 = cfg g 0 1 /\
      getClkPreDiv (setClkPreDiv g div) = getClkPreDiv g /\
      _conversionFactor (setClkPreDiv g div) = _conversionFactor g).
Proof.
  intros R. pose proof (factor_reachable g R) as I.
  pose proof (reachable_wf g R) as W.
  split; [assumption|]. split.
  { intros raw. unfold measConv. now rewrite I. }
  split.
  { intros. apply factor_updateConversionFactor. }
  split.
  { apply factor_setClkPreDiv. }
  split.
  { intros div. now apply getClkPreDiv_setClkPreDiv. }
  intros div H1 H2 H4.
  assert (E : cfg (setClkPreDiv g div) 0 1 = cfg g 0 1).
  { unfold setClkPreDiv. apply Z.eqb_neq in H1, H2, H4. rewrite H1, H2, H4.
    cbn [orb]. cbv beta iota zeta. now rewrite set_cfg_id. }
  split; [assumption|]. split.
  - unfold getClkPreDiv. now rewrite E.
  - rewrite factor_setClkPreDiv, I. now apply factor_for_frame.
Qed.

(** ** First-wave offset *)

Lemma wf_probe (b : Z) : is_byte b = true -> wf (probe b) = true.
Proof.
  intros Hb. unfold wf, probe. simpl _config. simpl _status.
  rewrite wf_config_wr by (reflexivity || assumption). reflexivity.
Qed.

(** The byte [setFirstWaveOffset] stores depends on [_config[4][2]] only. *)
Lemma setFirstWaveOffset_cell (g : GP22) (offset : Z) :
  wf g = true ->
  cfg (setFirstWaveOffset g offset) 4 2
  = cfg (setFirstWaveOffset (probe (cfg g 4 2)) offset) 4 2.
Proof.
  intros W. pose proof (wf_probe _ (is_byte_cfg g 4 2 W)) as P.
  unfold setFirstWaveOffset.
  change (cfg (probe (cfg g 4 2)) 4 2) with (cfg g 4 2).
  cbv zeta.
  destruct (offset >? 15); [|destruct (offset <? -16)];
    rewrite !cfg_set_cfg_same by (assumption || lia); reflexivity.
Qed.

Lemma offset_readback_all (b : Z) :
  is_byte b = true -> offset_readback_ok b = true.
Proof. intros Hb. check_bytes b Hb. Qed.

(** Write then read of the first-wave offset, over the documented range. *)
Lemma firstWaveOffset_readback (g : GP22) (offset : Z) :
  wf g = true ->
  -36 <= offset <= 35 ->
  getFirstWaveOffset (setFirstWaveOffset g offset) = offset_readback offset.
Proof.
  intros W H. unfold getFirstWaveOffset.
  rewrite (setFirstWaveOffset_cell g offset W).
  fold (getFirstWaveOffset (setFirstWaveOffset (probe (cfg g 4 2)) offset)).
  pose proof (offset_readback_all _ (is_byte_cfg g 4 2 W)) as K.
  unfold offset_readback_ok in K.
  pose proof (all_between_spec _ _ _ K offset) as K'. cbv beta in K'.
  apply Z.eqb_eq. apply K'. simpl. lia.
Qed.

(** The round trip holds where the 5-bit field is not negative. *)
Lemma firstWaveOffset_roundtrip_nonneg (g : GP22) (offset : Z) :
  wf g = true ->
  -36 <= offset <= 35 ->
  0 <= offset_core offset ->
  getFirstWaveOffset (setFirstWaveOffset g offset) = offset.
Proof.
  intros W H C. rewrite firstWaveOffset_readback by assumption.
  unfold offset_readback.
  now replace (offset_core offset <? 0) with false
    by (symmetry; apply Z.ltb_ge; assumption).
Qed.

(** It fails where the field is negative: the value read is 32 too large. *)
Lemma firstWaveOffset_roundtrip_neg (g : GP22) (offset : Z) :
  wf g = true ->
  -36 <= offset <= 35 ->
  offset_core offset < 0 ->
  getFirstWaveOffset (setFirstWaveOffset g offset) = offset + 32.
Proof.
  intros W H C. rewrite firstWaveOffset_readback by assumption.
  unfold offset_readback.
  now replace (offset_core offset <? 0) with true
    by (symmetry; apply Z.ltb_lt; assumption).
Qed.

(** C1: the round trip of the first-wave offset, evaluated at offset -1:
    [setFirstWaveOffset] stores the 5-bit two's complement 31 and clears
    both range bits, and [getFirstWaveOffset] then returns 31, not -1. *)
Theorem C1_firstWaveOffset_minus_one (g : GP22) :
  wf g = true ->
  Z.land (cfg (setFirstWaveOffset g (-1)) 4 2) 0x7F = 31 /\
  getFirstWaveOffset (setFirstWaveOffset g (-1)) = 31.
Proof.
  intros W. split.
  - rewrite setFirstWaveOffset_cell by assumption.
    pose proof (is_byte_cfg g 4 2 W) as Hb. revert Hb.
    generalize (cfg g 4 2) as b. intros b Hb.
    apply Z.eqb_eq. check_bytes b Hb.
  - now rewrite firstWaveOffset_roundtrip_neg by (assumption || lia || reflexivity).
Qed.

(** ** First-wave delays *)

(** Clearing a bit field with [x ^ (x & mask)], arithmetically. *)
Lemma land_shifted_ones (x lo w : Z) :
  0 <= lo -> 0 <= w ->
  Z.land x (Z.shiftl (Z.ones w) lo) = 2 ^ lo * ((x / 2 ^ lo) mod 2 ^ w).
Proof.
  intros Hlo Hw.
  rewrite <- Z.shiftr_div_pow2, <- Z.land_ones by assumption.
  rewrite Z.mul_comm, <- Z.shiftl_mul_pow2 by assumption.
  apply Z.bits_inj'. intros n Hn. rewrite Z.land_spec.
  destruct (Z.lt_ge_cases n lo) as [L | L].
  - rewrite !Z.shiftl_spec_low by assumption. apply andb_false_r.
  - rewrite !Z.shiftl_spec by assumption.
    rewrite Z.land_spec, Z.shiftr_spec by lia.
    now replace (n - lo + lo) with n by lia.
Qed.

Lemma lxor_land_sub (x m : Z) : Z.lxor x (Z.land x m) = x - Z.land x m.
Proof.
  rewrite Z.sub_nocarry_ldiff.
  - apply Z.bits_inj'. intros n Hn.
    rewrite Z.lxor_spec, Z.ldiff_spec, Z.land_spec.
    now destruct (Z.testbit x n), (Z.testbit m n).
  - apply Z.bits_inj'. intros n Hn.
    rewrite Z.ldiff_spec, Z.land_spec, Z.bits_0.
    now destruct (Z.testbit x n), (Z.testbit m n).
Qed.

Lemma clear_field (x lo w : Z) :
  0 <= lo -> 0 <= w ->
  Z.lxor x (Z.land x (Z.shiftl (Z.ones w) lo))
  = x - 2 ^ lo * ((x / 2 ^ lo) mod 2 ^ w).
Proof.
  intros Hlo Hw. now rewrite lxor_land_sub, land_shifted_ones.
Qed.

Lemma field_div_mod (x lo w : Z) :
  0 <= lo -> 0 <= w -> field x lo w = (x / 2 ^ lo) mod 2 ^ w.
Proof.
  intros Hlo Hw. unfold field.
  now rewrite Z.land_ones, Z.shiftr_div_pow2.
Qed.


Lemma uint16_small (z : Z) : 0 <= z < 65536 -> uint16 z = z.
Proof. intros H. unfold uint16. now apply Z.mod_small. Qed.

(** For all stops below 64, the local value of [setFirstWaveDelays] holds
    the three stops in bits 8-13, 14-19 and 20-25 of register 3 and keeps
    bits 0-7 and 26-31. *)
Lemma firstWaveDelays_piece_correct (g : GP22) (stop1 stop2 stop3 : Z) :
  wf g = true ->
  0 <= stop1 < 64 -> 0 <= stop2 < 64 -> 0 <= stop3 < 64 ->
  let r := reg32 g 3 in
  let p := bit32 (firstWaveDelays_piece g stop1 stop2 stop3) in
  field p 8 6 = stop1 /\ field p 14 6 = stop2 /\ field p 20 6 = stop3 /\
  field p 0 8 = field r 0 8 /\ field p 26 6 = field r 26 6.
Proof.
  intros W H1 H2 H3.
  pose proof (proj1 (is_byte_iff _) (is_byte_cfg g 3 0 W)) as B0.
  pose proof (proj1 (is_byte_iff _) (is_byte_cfg g 3 1 W)) as B1.
  pose proof (proj1 (is_byte_iff _) (is_byte_cfg g 3 2 W)) as B2.
  pose proof (proj1 (is_byte_iff _) (is_byte_cfg g 3 3 W)) as B3.
  unfold reg32, getConfig. cbn [seq map nth].
  unfold firstWaveDelays_piece.
  generalize dependent (cfg g 3 0). intros a B0.
  generalize dependent (cfg g 3 1). intros b B1.
  generalize dependent (cfg g 3 2). intros c B2.
  generalize dependent (cfg g 3 3). intros d B3.
  cbv zeta. unfold set_bit8, set_bit16, bit16, bit8, FourByte_zero;
    cbn [bit8_0 bit8_1 bit8_2 bit8_3].
  rewrite (uint8_small a), (uint8_small b), (uint8_small c), (uint8_small d),
    (uint16_small stop3), (uint16_small stop2) by lia.
  rewrite !Z.shiftl_mul_pow2 by lia.
  change 1008 with (Z.shiftl (Z.ones 6) 4).
  change 4032 with (Z.shiftl (Z.ones 6) 6).
  change 63 with (Z.shiftl (Z.ones 6) 0).
  (* DELREL3 *)
  remember (b + 256 * a) as T eqn:ET.
  rewrite (clear_field T 4 6) by lia.
  assert (EA : 0 <= T - 2 ^ 4 * ((T / 2 ^ 4) mod 2 ^ 6) + stop3 * 2 ^ 4 < 65536)
    by (Z.div_mod_to_equations; lia).
  rewrite (uint16_small (T - _)) by (Z.div_mod_to_equations; lia).
  rewrite !(uint16_small (T - _ + _)) by exact EA.
  remember (T - 2 ^ 4 * ((T / 2 ^ 4) mod 2 ^ 6) + stop3 * 2 ^ 4) as top eqn:Etop.
  (* DELREL2 *)
  assert (EL : 0 <= top mod 256 < 256) by (apply Z.mod_pos_bound; lia).
  rewrite (uint16_small (top mod 256)) by lia.
  remember (top mod 256 * 2 ^ 8 + c) as M eqn:EM.
  assert (RM : 0 <= M < 65536) by lia.
  rewrite (uint16_small M) by exact RM.
  rewrite (clear_field M 6 6) by lia.
  assert (EB : 0 <= M - 2 ^ 6 * ((M / 2 ^ 6) mod 2 ^ 6) + stop2 * 2 ^ 6 < 65536)
    by (Z.div_mod_to_equations; lia).
  rewrite (uint16_small (M - _)) by (Z.div_mod_to_equations; lia).
  rewrite !(uint16_small (M - _ + _)) by exact EB.
  remember (M - 2 ^ 6 * ((M / 2 ^ 6) mod 2 ^ 6) + stop2 * 2 ^ 6) as mid eqn:Emid.
  rewrite Z.shiftr_div_pow2 by lia.
  assert (EH : 0 <= mid / 2 ^ 8 < 256) by (Z.div_mod_to_equations; lia).
  rewrite !(uint8_small (mid / 2 ^ 8)) by exact EH.
  (* DELREL1 *)
  assert (EY : 0 <= uint8 mid < 256) by (apply Z.mod_pos_bound; lia).
  rewrite !(uint8_small (uint8 mid)) by exact EY.
  remember (uint8 mid) as y eqn:Ey. unfold uint8 in Ey.
  rewrite (clear_field y 0 6) by lia.
  assert (EC : 0 <= y - 2 ^ 0 * ((y / 2 ^ 0) mod 2 ^ 6) + stop1 < 256)
    by (Z.div_mod_to_equations; lia).
  rewrite (uint8_small (y - _)) by (Z.div_mod_to_equations; lia).
  rewrite !(uint8_small (y - _ + _)) by exact EC.
  unfold bit32; cbn [bit8_0 bit8_1 bit8_2 bit8_3].
  rewrite !field_div_mod by lia.
  repeat split; Z.div_mod_to_equations; lia.
Qed.

(** C2: [setFirstWaveDelays] stores nothing: the register file is the same
    after the call for all arguments, and on a fresh object the call with
    stops 3, 4, 5 leaves register 3 at 0x20000000, whose bit fields 8-13,
    14-19 and 20-25 read 0 and not 3, 4, 5. *)
Theorem C2_setFirstWaveDelays_stores_nothing :
  (forall (g : GP22) stop1 stop2 stop3,
      _config (setFirstWaveDelays g stop1 stop2 stop3) = _config g) /\
  (forall pin status0 factor0,
      let g' := setFirstWaveDelays (GP22_new pin status0 factor0) 3 4 5 in
      reg32 g' 3 = 0x20000000 /\
      field (reg32 g' 3) 8 6 = 0 /\
      field (reg32 g' 3) 14 6 = 0 /\
      field (reg32 g' 3) 20 6 = 0).
Proof.
  split.
  - reflexivity.
  - intros pin status0 factor0 g'. repeat split; reflexivity.
Qed.

(** The local value computed by [setFirstWaveDelays] does hold the three
    stops in bits 8-13, 14-19 and 20-25 and keeps the other bits; it is the
    store into [_config] that is absent. *)
Example firstWaveDelays_piece_fresh (pin status0 : Z) (factor0 : F) :
  let g := GP22_new pin status0 factor0 in
  let p := bit32 (firstWaveDelays_piece g 3 4 63) in
  field p 8 6 = 3 /\ field p 14 6 = 4 /\ field p 20 6 = 63 /\
  Z.land p 0xFC0000FF = Z.land (reg32 g 3) 0xFC0000FF.
Proof. repeat split; reflexivity. Qed.

(** The same on a register 3 with every bit set and the largest stops. *)
Example firstWaveDelays_piece_full (g : GP22) :
  cfg g 3 0 = 0xFF -> cfg g 3 1 = 0xFF -> cfg g 3 2 = 0xFF -> cfg g 3 3 = 0xFF ->
  let p := bit32 (firstWaveDelays_piece g 61 62 63) in
  field p 8 6 = 61 /\ field p 14 6 = 62 /\ field p 20 6 = 63 /\
  Z.land p 0xFC0000FF = 0xFC0000FF.
Proof.
  intros E0 E1 E2 E3. unfold firstWaveDelays_piece.
  rewrite E0, E1, E2, E3. repeat split; reflexivity.
Qed.

(** * Further properties of the driver *)

(** ** Shape of the register file *)

(** X1: every state reachable from the constructor through the public calls
    has a register file of 7 rows of 4 bytes, each within 0..255, and a
    16-bit status word. *)
Theorem X1_reachable_shape (g : GP22) :
  reachable g ->
  length (_config g) = 7%nat /\
  (forall i, (i < 7)%nat -> length (nth i (_config g) []) = 4%nat) /\
  (forall i j, 0 <= cfg g i j < 256) /\
  0 <= _status g < 65536.
Proof.
  intros R. pose proof (reachable_wf g R) as W.
  unfold wf in W. apply andb_true_iff in W as [C S].
  split; [now apply wf_config_length|]. split; [|split].
  - intros i Hi. apply wf_row_length. now apply wf_config_row.
  - intros i j. apply is_byte_iff. now apply is_byte_rd.
  - now apply is_word_iff.
Qed.

(** X2: a public call changes no cell of the register file outside its
    footprint, never changes the slave-select pin, changes the status word
    only if it is [readStatus] and the conversion factor only if it is
    [setClkPreDiv]. *)
Theorem X2_call_footprint (g : GP22) (c : Call) :
  (forall i j, ~ In (i, j) (touches c) -> cfg (exec g c) i j = cfg g i j) /\
  _ssPin (exec g c) = _ssPin g /\
  ((forall r1 r2, c <> CreadStatus r1 r2) -> _status (exec g c) = _status g) /\
  ((forall div, c <> CsetClkPreDiv div) ->
   _conversionFactor (exec g c) = _conversionFactor g).
Proof.
  split; [intros i j H; now apply exec_frame|].
  split; [|split].
  - destruct c; cbn [exec]; try reflexivity.
    + unfold setQuadRes. now destruct (_ =? 2).
    + unfold setMeasurementMode.
      destruct (mode =? 1); [|destruct (mode =? 2)]; try reflexivity.
      now destruct (isQuadRes g).
    + unfold setEdgeSensitivity.
      repeat match goal with
             | |- context [let '(_, _) := ?e in _] => destruct e
             end.
      reflexivity.
    + unfold setFirstWaveOffset.
      repeat match goal with
             | |- context [let '(_, _) := ?e in _] => destruct e
             end.
      reflexivity.
  - intros H. destruct c; cbn [exec]; try reflexivity.
    + now elim (H r1 r2).
    + unfold setQuadRes. now destruct (_ =? 2).
    + unfold setMeasurementMode.
      destruct (mode =? 1); [|destruct (mode =? 2)]; try reflexivity.
      now destruct (isQuadRes g).
    + unfold setEdgeSensitivity.
      repeat match goal with
             | |- context [let '(_, _) := ?e in _] => destruct e
             end.
      reflexivity.
    + unfold setFirstWaveOffset.
      repeat match goal with
             | |- context [let '(_, _) := ?e in _] => destruct e
             end.
      reflexivity.
  - apply exec_factor.
Qed.

(** ** Exporting the configuration *)

Lemma reg32_bytes (g : GP22) (i : nat) :
  wf g = true -> (i < 7)%nat ->
  reg32 g i
  = cfg g i 0 * 2 ^ 24 + cfg g i 1 * 2 ^ 16 + cfg g i 2 * 2 ^ 8 + cfg g i 3.
Proof.
  intros W Hi.
  pose proof (proj1 (is_byte_iff _) (is_byte_cfg g i 0 W)).
  pose proof (proj1 (is_byte_iff _) (is_byte_cfg g i 1 W)).
  pose proof (proj1 (is_byte_iff _) (is_byte_cfg g i 2 W)).
  pose proof (proj1 (is_byte_iff _) (is_byte_cfg g i 3 W)).
  unfold reg32, getConfig.
  do 7 (destruct i as [|i]; [cbn [seq map nth]; rewrite !Z.shiftl_mul_pow2 by lia;
                             apply Z.mod_small; lia|]).
  lia.
Qed.

(** X3: [getConfig] exports seven values below 2^32, and byte [j] of
    register [i], counted from the most significant one, is
    [_config[i][j]]. *)
Theorem X3_getConfig_bytes (g : GP22) (i : nat) :
  wf g = true -> (i < 7)%nat ->
  length (getConfig g) = 7%nat /\
  0 <= reg32 g i < 2 ^ 32 /\
  field (reg32 g i) 24 8 = cfg g i 0 /\
  field (reg32 g i) 16 8 = cfg g i 1 /\
  field (reg32 g i) 8 8 = cfg g i 2 /\
  field (reg32 g i) 0 8 = cfg g i 3.
Proof.
  intros W Hi. rewrite (reg32_bytes g i W Hi).
  pose proof (proj1 (is_byte_iff _) (is_byte_cfg g i 0 W)).
  pose proof (proj1 (is_byte_iff _) (is_byte_cfg g i 1 W)).
  pose proof (proj1 (is_byte_iff _) (is_byte_cfg g i 2 W)).
  pose proof (proj1 (is_byte_iff _) (is_byte_cfg g i 3 W)).
  split; [reflexivity|].
  rewrite !field_div_mod by lia.
  repeat split; try lia; Z.div_mod_to_equations; lia.
Qed.

(** ** Bus traffic *)

Lemma byte_of_reg32 (g : GP22) (i : nat) :
  wf g = true -> (i < 7)%nat ->
  uint8 (cfg g i 0) = Z.land (Z.shiftr (reg32 g i) 24) 0xFF /\
  uint8 (cfg g i 1) = Z.land (Z.shiftr (reg32 g i) 16) 0xFF /\
  uint8 (cfg g i 2) = Z.land (Z.shiftr (reg32 g i) 8) 0xFF /\
  uint8 (cfg g i 3) = Z.land (reg32 g i) 0xFF.
Proof.
  intros W Hi.
  rewrite !uint8_small by (apply is_byte_iff; now apply is_byte_cfg).
  rewrite (reg32_bytes g i W Hi).
  pose proof (proj1 (is_byte_iff _) (is_byte_cfg g i 0 W)).
  pose proof (proj1 (is_byte_iff _) (is_byte_cfg g i 1 W)).
  pose proof (proj1 (is_byte_iff _) (is_byte_cfg g i 2 W)).
  pose proof (proj1 (is_byte_iff _) (is_byte_cfg g i 3 W)).
  change 0xFF with (Z.ones 8).
  rewrite !Z.land_ones, !Z.shiftr_div_pow2 by lia.
  repeat split; Z.div_mod_to_equations; lia.
Qed.

(** One register write, as a frame. *)
Lemma transfer4B_register (g : GP22) (i : nat) (d : Device) (l : Log) :
  wf g = true -> (i < 7)%nat ->
  snd (transfer4B_bus g (uint8 (0x80 + Z.of_nat i))
         (cfg g i 0) (cfg g i 1) (cfg g i 2) (cfg g i 3) d l)
  = l ++ write_frame (_ssPin g) (0x80 + Z.of_nat i) (reg32 g i).
Proof.
  intros W Hi.
  destruct (byte_of_reg32 g i W Hi) as (E0 & E1 & E2 & E3).
  unfold transfer4B_bus, bind, SPI_transfer, ret, write_frame. cbn [snd].
  rewrite E0, E1, E2, E3.
  rewrite !(uint8_small (0x80 + Z.of_nat i)) by lia.
  now rewrite <- !app_assoc.
Qed.

Lemma for_each_snd (A : Type) (l : list A) (body : A -> Bus unit)
    (frame : A -> Log) (d : Device) :
  (forall i lg, In i l -> snd (body i d lg) = lg ++ frame i) ->
  forall lg, snd (for_each l body d lg) = lg ++ flat_map frame l.
Proof.
  induction l as [|i rest IH]; intros H lg; cbn [for_each flat_map].
  - unfold ret. cbn [snd]. now rewrite app_nil_r.
  - unfold bind. pose proof (H i lg (or_introl eq_refl)) as Hi.
    destruct (body i d lg) as [u lg']. cbn [snd] in Hi. subst lg'.
    rewrite IH by (intros; apply H; now right).
    now rewrite app_assoc.
Qed.

Lemma updateConfig_log (g : GP22) (d : Device) (l : Log) :
  wf g = true -> snd (updateConfig g d l) = l ++ config_frames g.
Proof.
  intros W. unfold updateConfig, config_frames.
  apply for_each_snd. intros i lg Hi.
  apply in_seq in Hi.
  unfold bind, ret.
  pose proof (transfer4B_register g i d lg W ltac:(lia)) as E.
  destruct (transfer4B_bus _ _ _ _ _ _ d lg) as [v lg']. exact E.
Qed.

(** X4: [updateConfig] puts on the wire exactly the seven values that
    [getConfig] exports: for each register in index order one frame of five
    transfers, the opcode 0x80 + index and then the four bytes, most
    significant first, with chip select held until the last one. *)
Theorem X4_updateConfig_sends_getConfig (g : GP22) (d : Device) (l : Log) :
  wf g = true ->
  updateConfig g d l = (tt, l ++ config_frames g) /\
  length (config_frames g) = 35%nat.
Proof.
  intros W. split.
  - pose proof (updateConfig_log g d l W) as E.
    destruct (updateConfig g d l) as [[] l']. cbn [snd] in E. now subst.
  - reflexivity.
Qed.

Lemma begin_log (g : GP22) (d : Device) (l : Log) :
  wf g = true ->
  begin g d l
  = (tt, l ++ [ SPI_begin (_ssPin g);
                SPI_setClockDivider (_ssPin g) 6;
                SPI_setDataMode (_ssPin g) SPI_MODE1;
                SPI_setBitOrder (_ssPin g) MSBFIRST;
                SPI_transferred (_ssPin g) 0x50 SPI_LAST ]
            ++ config_frames g).
Proof.
  intros W. unfold begin, bind, emit, SPI_transfer.
  match goal with
  | |- context [updateConfig g d ?L] =>
      pose proof (updateConfig_log g d L W) as E;
      destruct (updateConfig g d L) as [[] l']
  end.
  cbn [snd] in E. subst l'.
  f_equal. rewrite <- !app_assoc. reflexivity.
Qed.

(** X5: [begin] sets the bus up, sends the power-on reset 0x50 as a frame
    of its own and then pushes the whole shadow register file, so that
    settings made before [begin] reach the device. *)
Theorem X5_begin_pushes_config (g : GP22) (d : Device) (l : Log) :
  wf g = true ->
  begin g d l
  = (tt, l ++ [ SPI_begin (_ssPin g);
                SPI_setClockDivider (_ssPin g) 6;
                SPI_setDataMode (_ssPin g) SPI_MODE1;
                SPI_setBitOrder (_ssPin g) MSBFIRST;
                SPI_transferred (_ssPin g) 0x50 SPI_LAST ]
            ++ config_frames g).
Proof. apply begin_log. Qed.

(** X6: [readResult] with a register number of 4 or more returns 0 and
    causes no bus traffic at all. *)
Theorem X6_readResult_no_such_register
    (g : GP22) (resultRegister : Z) (d : Device) (l : Log) :
  4 <= resultRegister ->
  readResult g resultRegister d l = (0, l).
Proof.
  intros H. unfold readResult.
  replace (resultRegister <? 4) with false by (symmetry; apply Z.ltb_ge; lia).
  reflexivity.
Qed.

Lemma uint8_uint8 (z : Z) : uint8 (uint8 z) = uint8 z.
Proof. unfold uint8. apply Z.mod_mod. lia. Qed.

(** X7: [readResult] with a register number below 4 sends the opcode
    0xB0 + number and four zero bytes in one frame, and returns the four
    bytes answered after the opcode, most significant first, as a signed
    32-bit number. *)
Theorem X7_readResult_value
    (g : GP22) (resultRegister : Z) (d : Device) (l : Log) :
  0 <= resultRegister < 4 ->
  let pin := _ssPin g in
  let l0 := l ++ [SPI_transferred pin (0xB0 + resultRegister) SPI_CONTINUE] in
  let a1 := uint8 (d l0) in
  let l1 := l0 ++ [SPI_transferred pin 0 SPI_CONTINUE] in
  let a2 := uint8 (d l1) in
  let l2 := l1 ++ [SPI_transferred pin 0 SPI_CONTINUE] in
  let a3 := uint8 (d l2) in
  let l3 := l2 ++ [SPI_transferred pin 0 SPI_CONTINUE] in
  let a4 := uint8 (d l3) in
  let v := fst (readResult g resultRegister d l) in
  snd (readResult g resultRegister d l)
  = l3 ++ [SPI_transferred pin 0 SPI_LAST] /\
  v mod 2 ^ 32 = a1 * 2 ^ 24 + a2 * 2 ^ 16 + a3 * 2 ^ 8 + a4 /\
  - 2 ^ 31 <= v < 2 ^ 31 /\
  (0 <= v <-> a1 < 128).
Proof.
  intros H pin l0 a1 l1 a2 l2 a3 l3 a4 v.
  assert (E : readResult g resultRegister d l
              = (int32 (a4 + 256 * a3 + 65536 * a2 + 16777216 * a1),
                 l3 ++ [SPI_transferred pin 0 SPI_LAST])).
  { unfold readResult.
    replace (resultRegister <? 4) with true by (symmetry; apply Z.ltb_lt; lia).
    replace (resultRegister >=? 0) with true by (symmetry; apply Z.geb_le; lia).
    cbn [andb]. unfold transfer4B_bus, bind, SPI_transfer, ret.
    rewrite !(uint8_small (0xB0 + resultRegister)) by lia.
    unfold set_bit8, bit32, FourByte_zero; cbn [bit8_0 bit8_1 bit8_2 bit8_3].
    rewrite !uint8_uint8. reflexivity. }
  unfold v. rewrite E. cbn [fst snd]. split; [reflexivity|].
  pose proof (proj1 (is_byte_iff _) (is_byte_uint8 (d l0))) as B1.
  pose proof (proj1 (is_byte_iff _) (is_byte_uint8 (d l1))) as B2.
  pose proof (proj1 (is_byte_iff _) (is_byte_uint8 (d l2))) as B3.
  pose proof (proj1 (is_byte_iff _) (is_byte_uint8 (d l3))) as B4.
  fold a1 in B1. fold a2 in B2. fold a3 in B3. fold a4 in B4.
  clearbody a1 a2 a3 a4. unfold int32.
  repeat split; try (Z.div_mod_to_equations; lia).
Qed.

(** X8: [testComms] sends the opcode 0xB5 and one zero byte in one frame
    and returns true exactly when the byte answered after the opcode equals
    [_config[1][0]]; the question is put to the shadow value, not to a
    constant. *)
Theorem X8_testComms_echo (g : GP22) (d : Device) (l : Log) :
  let pin := _ssPin g in
  let l0 := l ++ [SPI_transferred pin 0xB5 SPI_CONTINUE] in
  snd (testComms_bus g d l) = l0 ++ [SPI_transferred pin 0 SPI_LAST] /\
  (fst (testComms_bus g d l) = true <-> uint8 (d l0) = cfg g 1 0) /\
  fst (testComms_bus g d l) = testComms g (d l0).
Proof.
  intros pin l0.
  unfold testComms_bus, testComms, transfer1B_bus, transfer1B, bind,
    SPI_transfer, ret, set_bit8, bit8, FourByte_zero;
    cbn [fst snd bit8_0].
  rewrite !uint8_uint8.
  split; [reflexivity|]. split; [|reflexivity].
  unfold l0, pin.
  destruct (_ =? _) eqn:E.
  - apply Z.eqb_eq in E. tauto.
  - apply Z.eqb_neq in E. split; [discriminate | contradiction].
Qed.

(** [readStatus] sends the opcode 0xB4 and two zero bytes in one frame
    and stores the two bytes answered after the opcode as a 16-bit number,
    first byte high; the register file and the conversion factor are not
    touched. *)
Lemma readStatus_bus_frame (g : GP22) (d : Device) (l : Log) :
  let pin := _ssPin g in
  let l0 := l ++ [SPI_transferred pin 0xB4 SPI_CONTINUE] in
  let a1 := uint8 (d l0) in
  let l1 := l0 ++ [SPI_transferred pin 0 SPI_CONTINUE] in
  let a2 := uint8 (d l1) in
  let g' := fst (readStatus_bus g d l) in
  snd (readStatus_bus g d l) = l1 ++ [SPI_transferred pin 0 SPI_LAST] /\
  g' = readStatus g a1 a2 /\
  _status g' = 256 * a1 + a2 /\
  0 <= _status g' < 65536 /\
  _config g' = _config g /\
  _conversionFactor g' = _conversionFactor g.
Proof.
  intros pin l0 a1 l1 a2 g'.
  assert (E : readStatus_bus g d l
              = (readStatus g a1 a2, l1 ++ [SPI_transferred pin 0 SPI_LAST])).
  { unfold readStatus_bus, readStatus, transfer2B_bus, transfer2B, bind,
      SPI_transfer, ret. reflexivity. }
  unfold g'. rewrite E. cbn [fst snd].
  pose proof (proj1 (is_byte_iff _) (is_byte_uint8 (d l0))) as B1.
  pose proof (proj1 (is_byte_iff _) (is_byte_uint8 (d l1))) as B2.
  fold a1 in B1. fold a2 in B2.
  change (_status (readStatus g a1 a2)) with (uint8 a2 + 256 * uint8 a1).
  rewrite !uint8_small by lia.
  repeat split; try reflexivity; lia.
Qed.

Lemma released_app (l new : Log) :
  released new = true -> (released l = true \/ new <> []) ->
  released (l ++ new) = true.
Proof.
  unfold released. rewrite rev_app_distr.
  destruct (rev new) as [|e r] eqn:E.
  - intros _ [H | H]; [exact H|].
    apply (f_equal (@rev Event)) in E. rewrite rev_involutive in E.
    now elim H.
  - intros H _. exact H.
Qed.

Lemma on_pin_config_frames (g : GP22) :
  on_pin (_ssPin g) (config_frames g) = true.
Proof.
  unfold config_frames. cbn [seq flat_map write_frame app on_pin forallb].
  now rewrite Z.eqb_refl.
Qed.

(** X9: whatever the device answers, a public bus operation only appends
    to the log, every event it appends names the object's own slave-select
    pin, and it ends with chip select released if it began so; it changes
    neither the pin nor, unless it is [updateALUInstruction], the register
    file. *)
Theorem X9_bus_calls_framed (g : GP22) (c : BusCall) (d : Device) (l : Log) :
  wf g = true ->
  exists new,
    snd (exec_bus g c d l) = l ++ new /\
    on_pin (_ssPin g) new = true /\
    (released l = true -> released (l ++ new) = true) /\
    _ssPin (fst (exec_bus g c d l)) = _ssPin g /\
    ((forall i, c <> BupdateALUInstruction i) ->
     _config (fst (exec_bus g c d l)) = _config g).
Proof.
  intros W. destruct c; cbn [exec_bus].
  - eexists. unfold bind. rewrite (begin_log g d l W). cbn [fst snd].
    split; [reflexivity|]. split; [|split; [|split]];
      try reflexivity.
    + cbn [app on_pin forallb]. rewrite !Z.eqb_refl. cbn [andb].
      apply on_pin_config_frames.
    + intros _. apply released_app; [reflexivity | right; discriminate].
  - exists [SPI_transferred (_ssPin g) 0x70 SPI_LAST].
    unfold measure, bind, SPI_transfer, ret. cbn [fst snd on_pin forallb].
    rewrite Z.eqb_refl. repeat split.
    intros _. apply released_app; [reflexivity | right; discriminate].
  - eexists. unfold readStatus_bus, transfer2B_bus, bind, SPI_transfer, ret.
    cbn [fst snd]. rewrite <- !app_assoc. cbn [app].
    split; [reflexivity|]. cbn [on_pin forallb]. rewrite !Z.eqb_refl.
    repeat split.
    intros _. apply released_app; [reflexivity | right; discriminate].
  - unfold readResult. destruct (_ && _).
    + eexists. unfold transfer4B_bus, bind, SPI_transfer, ret.
      cbn [fst snd]. rewrite <- !app_assoc. cbn [app].
      split; [reflexivity|]. cbn [on_pin forallb]. rewrite !Z.eqb_refl.
      repeat split.
      intros _. apply released_app; [reflexivity | right; discriminate].
    + exists []. unfold bind, ret. cbn [fst snd]. rewrite app_nil_r.
      repeat split. intros H. exact H.
  - eexists. unfold testComms_bus, transfer1B_bus, bind, SPI_transfer, ret.
    cbn [fst snd]. rewrite <- !app_assoc. cbn [app].
    split; [reflexivity|]. cbn [on_pin forallb]. rewrite !Z.eqb_refl.
    repeat split.
    intros _. apply released_app; [reflexivity | right; discriminate].
  - exists (config_frames g). unfold bind.
    pose proof (updateConfig_log g d l W) as E.
    destruct (updateConfig g d l) as [[] l']. cbn [snd] in E. subst l'.
    unfold ret. cbn [fst snd].
    split; [reflexivity|]. split; [apply on_pin_config_frames|].
    repeat split.
    intros _. apply released_app; [reflexivity | right; discriminate].
  - eexists. unfold updateALUInstruction_bus, transfer4B_bus, bind,
      SPI_transfer, ret. cbn [fst snd]. rewrite <- !app_assoc. cbn [app].
    split; [reflexivity|].
    change (_ssPin (defineHit2Op (defineHit1Op g (hit1Op instruction))
                      (hit2Op instruction))) with (_ssPin g).
    cbn [on_pin forallb]. rewrite !Z.eqb_refl.
    split; [reflexivity|]. split; [|split].
    + intros _. apply released_app; [reflexivity | right; discriminate].
    + reflexivity.
    + intros H. now elim (H instruction).
Qed.

(** ** ALU operators *)

Lemma upd_upd_same (A : Type) (n : nat) (x y : A) (l : list A) :
  upd n x (upd n y l) = upd n x l.
Proof.
  revert n; induction l as [|h t IH]; intros [|n]; simpl; auto.
  f_equal; apply IH.
Qed.

Lemma wr_wr_same (c : Config) (i j : nat) (v w : Z) :
  wr (wr c i j v) i j w = wr c i j w.
Proof.
  unfold wr. destruct (Nat.lt_ge_cases i (length c)) as [L | L].
  - rewrite nth_upd_same by assumption. now rewrite !upd_upd_same.
  - now rewrite !(upd_overflow _ i _ c) by assumption.
Qed.

Lemma set_cfg_set_cfg (g : GP22) (i j : nat) (v w : Z) :
  set_cfg (set_cfg g i j v) i j w = set_cfg g i j w.
Proof. unfold set_cfg, with_config. simpl. now rewrite wr_wr_same. Qed.

Lemma hit1_bits (b : Z) :
  is_byte b = true ->
  all_below 256
    (fun op =>
       let v := uint8 (fold_left (fun v i => bitWrite v i 0) [0; 1; 2; 3] b
                       + op) in
       (uint8 (Z.land v 0x0F) =? op mod 16)
       && (uint8 (Z.shiftr (Z.land v 0xF0) 4)
           =? (uint8 (Z.shiftr (Z.land b 0xF0) 4) + op / 16) mod 16)) = true.
Proof. intros Hb. check_bytes b Hb. Qed.

Lemma hit2_bits (b : Z) :
  is_byte b = true ->
  all_below 256
    (fun op =>
       let v := uint8 (fold_left (fun v i => bitWrite v i 0) [4; 5; 6; 7] b
                       + Z.shiftl op 4) in
       (uint8 (Z.shiftr (Z.land v 0xF0) 4) =? op mod 16)
       && (uint8 (Z.land v 0x0F) =? uint8 (Z.land b 0x0F))) = true.
Proof. intros Hb. check_bytes b Hb. Qed.

Lemma defineHit1Op_fields (g : GP22) (op : Z) :
  wf g = true -> 0 <= op < 256 ->
  getHit1Op (defineHit1Op g op) = op mod 16 /\
  getHit2Op (defineHit1Op g op) = (getHit2Op g + op / 16) mod 16.
Proof.
  intros W H.
  pose proof (all_below_spec 256 _ (hit1_bits _ (is_byte_cfg g 1 0 W)) op
                ltac:(simpl; lia)) as B.
  cbv beta zeta in B. apply andb_true_iff in B as [B1 B2].
  apply Z.eqb_eq in B1, B2.
  unfold getHit1Op, getHit2Op, defineHit1Op.
  rewrite cfg_set_cfg_same by (assumption || lia). split; assumption.
Qed.

Lemma defineHit2Op_fields (g : GP22) (op : Z) :
  wf g = true -> 0 <= op < 256 ->
  getHit2Op (defineHit2Op g op) = op mod 16 /\
  getHit1Op (defineHit2Op g op) = getHit1Op g.
Proof.
  intros W H.
  pose proof (all_below_spec 256 _ (hit2_bits _ (is_byte_cfg g 1 0 W)) op
                ltac:(simpl; lia)) as B.
  cbv beta zeta in B. apply andb_true_iff in B as [B1 B2].
  apply Z.eqb_eq in B1, B2.
  unfold getHit1Op, getHit2Op, defineHit2Op.
  rewrite cfg_set_cfg_same by (assumption || lia). split; assumption.
Qed.

(** X10: [defineHit1Op] stores the low four bits of its argument as the
    HIT1 operator; the high four bits of the argument are added into the
    HIT2 operator, so HIT2 is kept only for operators below 16. *)
Theorem X10_defineHit1Op_fields (g : GP22) (op : Z) :
  wf g = true -> 0 <= op < 256 ->
  getHit1Op (defineHit1Op g op) = op mod 16 /\
  getHit2Op (defineHit1Op g op) = (getHit2Op g + op / 16) mod 16 /\
  (op < 16 ->
   getHit1Op (defineHit1Op g op) = op /\
   getHit2Op (defineHit1Op g op) = getHit2Op g).
Proof.
  intros W H. destruct (defineHit1Op_fields g op W H) as [E1 E2].
  split; [assumption|]. split; [assumption|].
  intros S. rewrite E1, E2.
  assert (R : 0 <= getHit2Op g < 16).
  { unfold getHit2Op.
    pose proof (is_byte_cfg g 1 0 W) as Hb. revert Hb.
    generalize (cfg g 1 0) as b. intros b Hb.
    assert (K : (0 <=? uint8 (Z.shiftr (Z.land b 0xF0) 4))
                && (uint8 (Z.shiftr (Z.land b 0xF0) 4) <? 16) = true)
      by check_bytes b Hb.
    apply andb_true_iff in K as [K1 K2].
    apply Z.leb_le in K1. apply Z.ltb_lt in K2. lia. }
  rewrite (Z.mod_small op), (Z.div_small op), Z.add_0_r, Z.mod_small by lia.
  split; reflexivity.
Qed.

(** X11: [defineHit2Op] stores the low four bits of its argument as the
    HIT2 operator and never disturbs the HIT1 operator, whatever the
    argument. *)
Theorem X11_defineHit2Op_fields (g : GP22) (op : Z) :
  wf g = true -> 0 <= op < 256 ->
  getHit2Op (defineHit2Op g op) = op mod 16 /\
  getHit1Op (defineHit2Op g op) = getHit1Op g /\
  (op < 16 -> getHit2Op (defineHit2Op g op) = op).
Proof.
  intros W H. destruct (defineHit2Op_fields g op W H) as [E1 E2].
  split; [assumption|]. split; [assumption|].
  intros S. rewrite E1. apply Z.mod_small. lia.
Qed.

Lemma hit_ops_commute_bits (b : Z) :
  is_byte b = true ->
  all_below 16
    (fun a =>
       all_below 16
         (fun c =>
            uint8 (fold_left (fun v i => bitWrite v i 0) [0; 1; 2; 3]
                     (uint8 (fold_left (fun v i => bitWrite v i 0) [4; 5; 6; 7] b
                             + Z.shiftl c 4))
                   + a)
            =? uint8 (fold_left (fun v i => bitWrite v i 0) [4; 5; 6; 7]
                        (uint8 (fold_left (fun v i => bitWrite v i 0)
                                  [0; 1; 2; 3] b + a))
                      + Z.shiftl c 4))) = true.
Proof. intros Hb. check_bytes b Hb. Qed.

(** X12: for operators below 16 the two ALU setters commute: the object is
    the same whichever is called first. *)
Theorem X12_hit_ops_commute (g : GP22) (op1 op2 : Z) :
  wf g = true -> 0 <= op1 < 16 -> 0 <= op2 < 16 ->
  defineHit1Op (defineHit2Op g op2) op1 = defineHit2Op (defineHit1Op g op1) op2.
Proof.
  intros W H1 H2.
  pose proof (all_below_spec 16 _ (hit_ops_commute_bits _ (is_byte_cfg g 1 0 W))
                op1 ltac:(simpl; lia)) as B.
  cbv beta in B.
  pose proof (all_below_spec 16 _ B op2 ltac:(simpl; lia)) as B'.
  cbv beta in B'. apply Z.eqb_eq in B'.
  unfold defineHit1Op, defineHit2Op.
  rewrite !cfg_set_cfg_same by (assumption || lia).
  rewrite !set_cfg_set_cfg. now rewrite B'.
Qed.

(** X13: [updateALUInstruction] with operators below 16 leaves both
    operators readable, changes no cell of the register file other than
    [_config[1][0]] and sends one frame only: opcode 0x81 with register 1 as
    [getConfig] exports it after the update. *)
Theorem X13_updateALUInstruction_frame
    (g : GP22) (instruction : ALUInstruction) (d : Device) (l : Log) :
  wf g = true ->
  0 <= hit1Op instruction < 16 -> 0 <= hit2Op instruction < 16 ->
  let g' := fst (updateALUInstruction_bus g instruction d l) in
  g' = updateALUInstruction g instruction /\
  getHit1Op g' = hit1Op instruction /\
  getHit2Op g' = hit2Op instruction /\
  (forall i j, ~ In (i, j) [(1%nat, 0%nat)] -> cfg g' i j = cfg g i j) /\
  snd (updateALUInstruction_bus g instruction d l)
  = l ++ write_frame (_ssPin g) 0x81 (reg32 g' 1).
Proof.
  intros W H1 H2 g'.
  assert (E : g' = updateALUInstruction g instruction).
  { unfold g', updateALUInstruction_bus, bind.
    now destruct (transfer4B_bus _ _ _ _ _ _ d l). }
  assert (W' : wf g' = true).
  { rewrite E. apply (wf_exec g (CupdateALUInstruction instruction) W). }
  assert (W1 : wf (defineHit1Op g (hit1Op instruction)) = true)
    by apply (wf_exec g (CdefineHit1Op (hit1Op instruction)) W).
  split; [exact E|]. rewrite E. unfold updateALUInstruction.
  destruct (defineHit1Op_fields g (hit1Op instruction) W ltac:(lia)) as [A1 _].
  destruct (defineHit2Op_fields (defineHit1Op g (hit1Op instruction))
              (hit2Op instruction) W1 ltac:(lia)) as [A2 A3].
  split; [|split; [|split]].
  - rewrite A3, A1. apply Z.mod_small. lia.
  - rewrite A2. apply Z.mod_small. lia.
  - intros i j N.
    apply (exec_frame g (CupdateALUInstruction instruction) i j N).
  - pose proof (transfer4B_register g' 1 d l W' ltac:(lia)) as T.
    rewrite E in T. unfold updateALUInstruction in T.
    unfold updateALUInstruction_bus, bind.
    change 0x81 with (uint8 (0x80 + Z.of_nat 1)).
    destruct (transfer4B_bus _ _ _ _ _ _ d l) as [v l'].
    cbn [snd] in *. exact T.
Qed.

(** ** Edge sensitivity *)

Lemma edge_bits (b : Z) :
  is_byte b = true ->
  all_below 2
    (fun s0 =>
       all_below 2
         (fun s1 =>
            all_below 2
              (fun s2 =>
                 let v := bitWrite (bitWrite (bitWrite b 0 s0) 1 s1) 2 s2 in
                 (Z.land v 0x07 =? s0 + 2 * s1 + 4 * s2)
                 && (Z.land v 0xF8 =? Z.land b 0xF8)))) = true.
Proof. intros Hb. check_bytes b Hb. Qed.

(** X14: with each argument 0 or 1, [setEdgeSensitivity] writes the three
    sense bits 0, 1, 2 of [_config[0][2]], keeps the other bits of that byte
    (the measurement mode among them) and leaves [_config[2][0]] alone. *)
Theorem X14_setEdgeSensitivity_single_edge (g : GP22) (start stop1 stop2 : Z) :
  wf g = true ->
  0 <= start <= 1 -> 0 <= stop1 <= 1 -> 0 <= stop2 <= 1 ->
  let g' := setEdgeSensitivity g start stop1 stop2 in
  Z.land (cfg g' 0 2) 0x07 = start + 2 * stop1 + 4 * stop2 /\
  Z.land (cfg g' 0 2) 0xF8 = Z.land (cfg g 0 2) 0xF8 /\
  getMeasurementMode g' = getMeasurementMode g /\
  cfg g' 2 0 = cfg g 2 0.
Proof.
  intros W H0 H1 H2 g'.
  pose proof (all_below_spec 2 _ (edge_bits _ (is_byte_cfg g 0 2 W))
                start ltac:(simpl; lia)) as B. cbv beta in B.
  pose proof (all_below_spec 2 _ B stop1 ltac:(simpl; lia)) as B1.
  cbv beta in B1.
  pose proof (all_below_spec 2 _ B1 stop2 ltac:(simpl; lia)) as B2.
  cbv beta zeta in B2. apply andb_true_iff in B2 as [E1 E2].
  apply Z.eqb_eq in E1, E2.
  assert (C : cfg g' 0 2
              = bitWrite (bitWrite (bitWrite (cfg g 0 2) 0 start) 1 stop1) 2 stop2
              /\ cfg g' 2 0 = cfg g 2 0).
  { unfold g', setEdgeSensitivity.
    replace ((start =? 0) || (start =? 1)) with true
      by (symmetry; apply orb_true_iff; rewrite !Z.eqb_eq; lia).
    replace ((stop1 =? 0) || (stop1 =? 1)) with true
      by (symmetry; apply orb_true_iff; rewrite !Z.eqb_eq; lia).
    replace ((stop2 =? 0) || (stop2 =? 1)) with true
      by (symmetry; apply orb_true_iff; rewrite !Z.eqb_eq; lia).
    cbv beta iota zeta. split.
    - rewrite cfg_set_cfg_other by (left; discriminate).
      now rewrite cfg_set_cfg_same by (assumption || lia).
    - rewrite cfg_set_cfg_same; [| apply wf_set_cfg; auto with bytes | lia | lia].
      reflexivity. }
  destruct C as [C1 C2]. rewrite C1.
  split; [assumption|]. split; [assumption|]. split; [|assumption].
  unfold getMeasurementMode. rewrite C1.
  replace (Z.land (bitWrite (bitWrite (bitWrite (cfg g 0 2) 0 start) 1 stop1)
                     2 stop2) 0x08)
    with (Z.land (cfg g 0 2) 0x08); [reflexivity|].
  change 0x08 with (Z.land 0xF8 0x08).
  now rewrite !Z.land_assoc, E2.
Qed.

(** The two bytes [setEdgeSensitivity] stores, for any arguments. *)
Lemma setEdgeSensitivity_cells (g : GP22) (start stop1 stop2 : Z) :
  wf g = true ->
  let x0 := cfg g 0 2 in
  let r0 := cfg g 2 0 in
  let x1 := if (start =? 0) || (start =? 1) then bitWrite x0 0 start else x0 in
  let x2 := if (stop1 =? 0) || (stop1 =? 1) then bitWrite x1 1 stop1
            else if stop1 =? 2 then bitClear x1 1 else x1 in
  let r1 := if (stop1 =? 0) || (stop1 =? 1) then r0
            else if stop1 =? 2 then bitSet r0 3 else r0 in
  let x3 := if (stop2 =? 0) || (stop2 =? 1) then bitWrite x2 2 stop2
            else if stop2 =? 2 then bitClear x2 2 else x2 in
  let r2 := if (stop2 =? 0) || (stop2 =? 1) then r1
            else if stop2 =? 2 then bitSet r1 4 else r1 in
  cfg (setEdgeSensitivity g start stop1 stop2) 0 2 = x3 /\
  cfg (setEdgeSensitivity g start stop1 stop2) 2 0 = r2.
Proof.
  intros W. cbv zeta. unfold setEdgeSensitivity.
  destruct ((stop1 =? 0) || (stop1 =? 1)); [|destruct (stop1 =? 2)];
    (destruct ((stop2 =? 0) || (stop2 =? 1)); [|destruct (stop2 =? 2)]);
    cbv beta iota zeta;
    (split;
     [ rewrite cfg_set_cfg_other by (left; discriminate);
       now rewrite cfg_set_cfg_same by (assumption || lia)
     | now rewrite cfg_set_cfg_same by
         ((apply wf_set_cfg; [assumption|]; split_ifs; auto with bytes) || lia) ]).
Qed.

Lemma both_edges_bits (r : Z) :
  is_byte r = true ->
  (Z.land r (bitSet r 3) =? r) && (Z.land r (bitSet r 4) =? r)
  && (Z.land r (bitSet (bitSet r 3) 4) =? r)
  && Z.testbit (bitSet r 3) 3 && Z.testbit (bitSet (bitSet r 3) 4) 3
  && Z.testbit (bitSet r 4) 4 && Z.testbit (bitSet (bitSet r 3) 4) 4 = true.
Proof. intros Hb. check_bytes r Hb. Qed.

Lemma land_keeps_bits (r v n : Z) :
  Z.land r v = r -> Z.testbit r n = true -> Z.testbit v n = true.
Proof.
  intros E H. rewrite <- E, Z.land_spec in H.
  now apply andb_true_iff in H.
Qed.

(** X15: [setEdgeSensitivity] never clears a bit of [_config[2][0]]: a stop
    argument of 2 sets the both-edges bit of that stop (bit 3 for stop 1,
    bit 4 for stop 2), and no argument takes it back. *)
Theorem X15_setEdgeSensitivity_both_edges_sticky
    (g : GP22) (start stop1 stop2 : Z) :
  wf g = true ->
  let g' := setEdgeSensitivity g start stop1 stop2 in
  (forall n, Z.testbit (cfg g 2 0) n = true -> Z.testbit (cfg g' 2 0) n = true) /\
  (stop1 = 2 -> Z.testbit (cfg g' 2 0) 3 = true) /\
  (stop2 = 2 -> Z.testbit (cfg g' 2 0) 4 = true).
Proof.
  intros W g'.
  destruct (setEdgeSensitivity_cells g start stop1 stop2 W) as [_ E].
  cbv zeta in E. fold g' in E. rewrite E.
  pose proof (both_edges_bits _ (is_byte_cfg g 2 0 W)) as B.
  repeat (apply andb_true_iff in B; destruct B as [B ?]).
  repeat match goal with K : (_ =? _) = true |- _ => apply Z.eqb_eq in K end.
  split; [|split].
  - intros n Hn.
    destruct ((stop1 =? 0) || (stop1 =? 1)); [|destruct (stop1 =? 2)];
      (destruct ((stop2 =? 0) || (stop2 =? 1)); [|destruct (stop2 =? 2)]);
      try assumption;
      eapply land_keeps_bits; eassumption.
  - intros ->. cbn [Z.eqb Pos.eqb orb].
    destruct ((stop2 =? 0) || (stop2 =? 1)); [|destruct (stop2 =? 2)];
      assumption.
  - intros ->. cbn [Z.eqb Pos.eqb orb].
    destruct ((stop1 =? 0) || (stop1 =? 1)); [|destruct (stop1 =? 2)];
      assumption.
Qed.

(** X16: arguments outside their domain are ignored one by one; when the
    start is not 0 or 1 and neither stop is 0, 1 or 2, the object is left
    as it was. *)
Theorem X16_setEdgeSensitivity_invalid_ignored
    (g : GP22) (start stop1 stop2 : Z) :
  1 < start -> 2 < stop1 -> 2 < stop2 ->
  setEdgeSensitivity g start stop1 stop2 = g.
Proof.
  intros H0 H1 H2. unfold setEdgeSensitivity.
  replace (start =? 0) with false by (symmetry; apply Z.eqb_neq; lia).
  replace (start =? 1) with false by (symmetry; apply Z.eqb_neq; lia).
  replace (stop1 =? 0) with false by (symmetry; apply Z.eqb_neq; lia).
  replace (stop1 =? 1) with false by (symmetry; apply Z.eqb_neq; lia).
  replace (stop1 =? 2) with false by (symmetry; apply Z.eqb_neq; lia).
  replace (stop2 =? 0) with false by (symmetry; apply Z.eqb_neq; lia).
  replace (stop2 =? 1) with false by (symmetry; apply Z.eqb_neq; lia).
  replace (stop2 =? 2) with false by (symmetry; apply Z.eqb_neq; lia).
  cbn [orb]. cbv beta iota zeta.
  rewrite set_cfg_id.
  apply set_cfg_id.
Qed.

(** ** One-bit settings *)

Lemma autoCalc_bits (b : Z) :
  is_byte b = true ->
  (Z.land (bitSet b 7) 0x80 >? 0) && negb (Z.land (bitClear b 7) 0x80 >? 0)
  && Bool.eqb (Z.land (bitSet b 7) 0x40 >? 0) (Z.land b 0x40 >? 0)
  && Bool.eqb (Z.land (bitClear b 7) 0x40 >? 0) (Z.land b 0x40 >? 0)
  && Bool.eqb (Z.land (bitSet b 6) 0x80 >? 0) (Z.land b 0x80 >? 0) = true.
Proof. intros Hb. check_bytes b Hb. Qed.

(** X17: [isAutoCalcOn] returns what [setAutoCalcOn] was given; the
    auto-calculation bit and the first-wave bit share [_config[3][0]] and
    neither setter disturbs the other's bit. *)
Theorem X17_autoCalc_roundtrip (g : GP22) (on : bool) :
  wf g = true ->
  isAutoCalcOn (setAutoCalcOn g on) = on /\
  isFirstWaveMode (setAutoCalcOn g on) = isFirstWaveMode g /\
  isAutoCalcOn (setFirstWaveMode g on) = isAutoCalcOn g.
Proof.
  intros W.
  pose proof (autoCalc_bits _ (is_byte_cfg g 3 0 W)) as B.
  repeat (apply andb_true_iff in B; destruct B as [B ?]).
  repeat match goal with K : Bool.eqb _ _ = true |- _ => apply eqb_prop in K end.
  repeat match goal with K : negb _ = true |- _ => apply negb_true_iff in K end.
  unfold isAutoCalcOn, isFirstWaveMode, setAutoCalcOn, setFirstWaveMode.
  destruct on; rewrite !cfg_set_cfg_same by (assumption || lia); auto.
Qed.

Lemma pulseWidth_bits (b : Z) :
  is_byte b = true ->
  (Z.land (bitClear b 0) 0x01 =? 0) && negb (Z.land (bitSet b 0) 0x01 =? 0)
  && (Z.land (bitClear b 0) 0xFE =? Z.land b 0xFE)
  && (Z.land (bitSet b 0) 0xFE =? Z.land b 0xFE) = true.
Proof. intros Hb. check_bytes b Hb. Qed.

(** X18: [isPulseWidthMeasOn] returns what [setPulseWidthMeasOn] was given
    (the stored bit is the disable bit, and both functions invert it), and
    the other seven bits of [_config[4][1]] are kept. *)
Theorem X18_pulseWidth_roundtrip (g : GP22) (on : bool) :
  wf g = true ->
  isPulseWidthMeasOn (setPulseWidthMeasOn g on) = on /\
  Z.land (cfg (setPulseWidthMeasOn g on) 4 1) 0xFE = Z.land (cfg g 4 1) 0xFE.
Proof.
  intros W.
  pose proof (pulseWidth_bits _ (is_byte_cfg g 4 1 W)) as B.
  repeat (apply andb_true_iff in B; destruct B as [B ?]).
  repeat match goal with K : (_ =? _) = true |- _ => apply Z.eqb_eq in K end.
  repeat match goal with K : negb _ = true |- _ => apply negb_true_iff in K end.
  unfold isPulseWidthMeasOn, setPulseWidthMeasOn.
  destruct on; rewrite !cfg_set_cfg_same by (assumption || lia); split;
    try assumption.
  now apply Z.eqb_eq.
Qed.

Lemma risingEdge_bits (b : Z) :
  is_byte b = true ->
  negb (Z.land (bitClear b 7) 0x80 >? 0) && (Z.land (bitSet b 7) 0x80 >? 0)
  && (Z.land (bitClear b 7) 0x7F =? Z.land b 0x7F)
  && (Z.land (bitSet b 7) 0x7F =? Z.land b 0x7F) = true.
Proof. intros Hb. check_bytes b Hb. Qed.

(** X19: [setFirstWaveRisingEdge on] clears bit 7 of [_config[4][2]] for
    [true] and sets it for [false], while [isFirstWaveRisingEdge] returns
    whether the bit is set: the getter returns the opposite of what the
    setter was given.  The low seven bits are kept. *)
Theorem X19_risingEdge_getter_inverted (g : GP22) (on : bool) :
  wf g = true ->
  isFirstWaveRisingEdge (setFirstWaveRisingEdge g on) = negb on /\
  Z.testbit (cfg (setFirstWaveRisingEdge g on) 4 2) 7 = negb on /\
  Z.land (cfg (setFirstWaveRisingEdge g on) 4 2) 0x7F
  = Z.land (cfg g 4 2) 0x7F.
Proof.
  intros W.
  pose proof (risingEdge_bits _ (is_byte_cfg g 4 2 W)) as B.
  repeat (apply andb_true_iff in B; destruct B as [B ?]).
  repeat match goal with K : (_ =? _) = true |- _ => apply Z.eqb_eq in K end.
  repeat match goal with K : negb _ = true |- _ => apply negb_true_iff in K end.
  assert (T : Z.testbit (bitClear (cfg g 4 2) 7) 7 = false
              /\ Z.testbit (bitSet (cfg g 4 2) 7) 7 = true).
  { pose proof (is_byte_cfg g 4 2 W) as Hb. revert Hb.
    generalize (cfg g 4 2) as b. intros b Hb.
    assert (K : negb (Z.testbit (bitClear b 7) 7) && Z.testbit (bitSet b 7) 7
                = true) by check_bytes b Hb.
    apply andb_true_iff in K as [K1 K2]. now apply negb_true_iff in K1. }
  destruct T as [T1 T2].
  unfold isFirstWaveRisingEdge, setFirstWaveRisingEdge.
  destruct on; rewrite !cfg_set_cfg_same by (assumption || lia); cbn [negb];
    auto.
Qed.

(** ** First-wave offset and edge in one byte *)

Lemma getFirstWaveOffset_probe (g : GP22) :
  getFirstWaveOffset g = getFirstWaveOffset (probe (cfg g 4 2)).
Proof. reflexivity. Qed.

Lemma isFirstWaveRisingEdge_probe (g : GP22) :
  isFirstWaveRisingEdge g = isFirstWaveRisingEdge (probe (cfg g 4 2)).
Proof. reflexivity. Qed.

Lemma offset_int8_bits (b : Z) :
  is_byte b = true ->
  all_between (-128) 256
    (fun o =>
       Bool.eqb (isFirstWaveRisingEdge (setFirstWaveOffset (probe b) o))
                (isFirstWaveRisingEdge (probe b))
       && (getFirstWaveOffset (setFirstWaveOffset (probe b) o)
           =? (if o >? 35 then 20
               else if o <? -36 then -20
               else offset_readback o))) = true.
Proof. intros Hb. check_bytes b Hb. Qed.

Lemma offset_edge_bits (b : Z) :
  is_byte b = true ->
  (getFirstWaveOffset (probe (bitClear b 7)) =? getFirstWaveOffset (probe b))
  && (getFirstWaveOffset (probe (bitSet b 7)) =? getFirstWaveOffset (probe b))
  = true.
Proof. intros Hb. check_bytes b Hb. Qed.

Lemma setFirstWaveOffset_int8 (g : GP22) (offset : Z) :
  wf g = true -> -128 <= offset < 128 ->
  isFirstWaveRisingEdge (setFirstWaveOffset g offset) = isFirstWaveRisingEdge g /\
  getFirstWaveOffset (setFirstWaveOffset g offset)
  = (if offset >? 35 then 20
     else if offset <? -36 then -20
     else offset_readback offset).
Proof.
  intros W H.
  pose proof (all_between_spec _ _ _ (offset_int8_bits _ (is_byte_cfg g 4 2 W))
                offset ltac:(simpl; lia)) as B.
  cbv beta in B. apply andb_true_iff in B as [B1 B2].
  apply eqb_prop in B1. apply Z.eqb_eq in B2.
  split.
  - rewrite (isFirstWaveRisingEdge_probe g), <- B1.
    unfold isFirstWaveRisingEdge.
    now rewrite (setFirstWaveOffset_cell g offset W).
  - rewrite <- B2. unfold getFirstWaveOffset.
    now rewrite (setFirstWaveOffset_cell g offset W).
Qed.

(** X20: the first-wave offset (bits 0-6 of [_config[4][2]]) and the
    first-wave edge (bit 7) do not interfere: [setFirstWaveOffset] keeps
    what [isFirstWaveRisingEdge] returns, for every [int8_t] argument, and
    [setFirstWaveRisingEdge] keeps what [getFirstWaveOffset] returns. *)
Theorem X20_offset_and_edge_independent (g : GP22) (offset : Z) (on : bool) :
  wf g = true -> -128 <= offset < 128 ->
  isFirstWaveRisingEdge (setFirstWaveOffset g offset) = isFirstWaveRisingEdge g /\
  getFirstWaveOffset (setFirstWaveRisingEdge g on) = getFirstWaveOffset g.
Proof.
  intros W H. split.
  - apply (setFirstWaveOffset_int8 g offset W H).
  - pose proof (offset_edge_bits _ (is_byte_cfg g 4 2 W)) as B.
    apply andb_true_iff in B as [B1 B2]. apply Z.eqb_eq in B1, B2.
    rewrite (getFirstWaveOffset_probe (setFirstWaveRisingEdge g on)).
    rewrite (getFirstWaveOffset_probe g).
    unfold setFirstWaveRisingEdge.
    rewrite cfg_set_cfg_same by (assumption || lia).
    now destruct on.
Qed.


(** ** Measurement mode *)

Lemma mode_bits (b : Z) :
  is_byte b = true ->
  negb (Z.land (bitClear b 3) 0x08 >? 0) && (Z.land (bitSet b 3) 0x08 >? 0)
  && (Z.land (bitClear b 3) 0xF7 =? Z.land b 0xF7)
  && (Z.land (bitSet b 3) 0xF7 =? Z.land b 0xF7) = true.
Proof. intros Hb. check_bytes b Hb. Qed.

(** X22: [getMeasurementMode] returns the mode bit, not the mode number:
    0 after [setMeasurementMode 1] and 1 after [setMeasurementMode 2].  A
    mode other than 1 and 2 leaves the object as it was, and the setter
    keeps the other seven bits of [_config[0][2]]. *)
Theorem X22_measurementMode_bit (g : GP22) (mode : Z) :
  wf g = true ->
  getMeasurementMode (setMeasurementMode g 1) = 0 /\
  getMeasurementMode (setMeasurementMode g 2) = 1 /\
  (mode <> 1 -> mode <> 2 -> setMeasurementMode g mode = g) /\
  Z.land (cfg (setMeasurementMode g mode) 0 2) 0xF7 = Z.land (cfg g 0 2) 0xF7.
Proof.
  intros W.
  pose proof (mode_bits _ (is_byte_cfg g 0 2 W)) as B.
  repeat (apply andb_true_iff in B; destruct B as [B ?]).
  repeat match goal with K : (_ =? _) = true |- _ => apply Z.eqb_eq in K end.
  repeat match goal with K : negb _ = true |- _ => apply negb_true_iff in K end.
  assert (W2 : wf (setDoubleRes g) = true) by now apply wf_setDoubleRes.
  assert (C1 : cfg (setMeasurementMode g 1) 0 2 = bitClear (cfg g 0 2) 3).
  { unfold setMeasurementMode. cbn [Z.eqb Pos.eqb].
    destruct (isQuadRes g); rewrite cfg_set_cfg_same by (assumption || lia);
      reflexivity. }
  assert (C2 : cfg (setMeasurementMode g 2) 0 2 = bitSet (cfg g 0 2) 3).
  { unfold setMeasurementMode. cbn [Z.eqb Pos.eqb].
    now rewrite cfg_set_cfg_same by (assumption || lia). }
  split; [|split; [|split]].
  - unfold getMeasurementMode. rewrite C1, B. reflexivity.
  - unfold getMeasurementMode. rewrite C2.
    match goal with K : (Z.land (bitSet _ 3) 8 >? 0) = true |- _ => rewrite K end.
    reflexivity.
  - intros N1 N2. unfold setMeasurementMode.
    apply Z.eqb_neq in N1, N2. rewrite N1, N2. apply set_cfg_id.
  - destruct (Z.eq_dec mode 1) as [-> | N1]; [now rewrite C1|].
    destruct (Z.eq_dec mode 2) as [-> | N2]; [now rewrite C2|].
    unfold setMeasurementMode.
    apply Z.eqb_neq in N1, N2. rewrite N1, N2. now rewrite set_cfg_id.
Qed.

(** ** Consequences for the resolution and the divider *)

Lemma quad_stays_off (g : GP22) (c : Call) :
  wf g = true -> isQuadRes g = false -> isQuadRes (exec g c) = false.
Proof.
  intros W Q.
  destruct c;
    try (unfold isQuadRes; rewrite exec_frame
           by (cbn; intuition discriminate); exact Q);
    cbn [exec].
  - apply (res_setSingleRes g W).
  - apply (res_setDoubleRes g W).
  - now rewrite setQuadRes_id.
  - unfold isQuadRes. rewrite res_setMeasurementMode, Q, andb_false_r.
    exact Q.
Qed.

(** X23: no public call switches quad resolution on.  Once [isQuadRes] is
    false it stays false through any sequence of calls, [setQuadRes] and
    [setMeasurementMode 2] included; quad resolution is available only as
    the state the object is constructed in. *)
Theorem X23_quad_never_switched_on (g : GP22) (calls : list Call) :
  wf g = true ->
  isQuadRes g = false ->
  isQuadRes (fold_left exec calls g) = false.
Proof.
  revert g. induction calls as [|c rest IH]; intros g W Q; cbn [fold_left].
  - exact Q.
  - apply IH; [now apply wf_exec | now apply quad_stays_off].
Qed.

Lemma divRaw_bits (b : Z) :
  is_byte b = true ->
  (Z.land b 0x30 =? 0x30) = (uint8 (Z.shiftr (Z.land b 0x30) 4) =? 3).
Proof.
  intros Hb.
  assert (K : Bool.eqb (Z.land b 0x30 =? 0x30)
                       (uint8 (Z.shiftr (Z.land b 0x30) 4) =? 3) = true)
    by check_bytes b Hb.
  now apply eqb_prop.
Qed.

(** X24: [getClkPreDiv] returns 1, 2 or 4 in every state, never the 0 its
    local variable starts with; when both divider bits are set it returns
    4. *)
Theorem X24_getClkPreDiv_values (g : GP22) :
  wf g = true ->
  (getClkPreDiv g = 1 \/ getClkPreDiv g = 2 \/ getClkPreDiv g = 4) /\
  (Z.land (cfg g 0 1) 0x30 = 0x30 -> getClkPreDiv g = 4).
Proof.
  intros W. split; [now apply getClkPreDiv_values|].
  intros H. apply Z.eqb_eq in H.
  rewrite (divRaw_bits _ (is_byte_cfg g 0 1 W)) in H. apply Z.eqb_eq in H.
  unfold getClkPreDiv. cbv zeta. now rewrite H.
Qed.

End Driver.

(** ** The conversion factor in exact arithmetic *)

(** With exact rational arithmetic the cached factor is the real number
    2^-16 * (1/4,000,000) * 1,000,000 * N, that is N / 262144, and
    [measConv] is [raw] times it. *)
Lemma exact_conversion_factor (g : @GP22 Q) (raw : Z) :
  reachable g ->
  (_conversionFactor g
   == (1 # 65536) * (1 # 4000000) * (1000000 # 1) * inject_Z (getClkPreDiv g))%Q
  /\ (_conversionFactor g == inject_Z (getClkPreDiv g) / (262144 # 1))%Q
  /\ (measConv g raw
      == inject_Z raw * (inject_Z (getClkPreDiv g) / (262144 # 1)))%Q.
Proof.
  intros R. unfold measConv. rewrite (factor_reachable g R).
  unfold factor_for. cbn [f_mul f_lit f_of_int Q_FloatOps].
  repeat split; field.
Qed.

(** In single precision the result is the same real number: the rounding
    of 1/4,000,000 to [float] is undone by the rounding of the product with
    1,000,000, and the other factors are powers of two. *)
Lemma binary32_conversion_factor (g : @GP22 Q) :
  @reachable Q binary32_ops g ->
  (_conversionFactor g == inject_Z (getClkPreDiv g) / (262144 # 1))%Q.
Proof.
  intros R. rewrite (@factor_reachable Q binary32_ops g R).
  pose proof (@reachable_wf Q binary32_ops g R) as W.
  unfold factor_for.
  destruct (getClkPreDiv_values g W) as [E | [E | E]]; rewrite E;
    vm_compute; reflexivity.
Qed.

(** ** Instances of the theorems on concrete objects *)

Local Abbreviation fresh := (@GP22_new Q Q_FloatOps 10 0 0%Q).

Lemma C1_witness :
  wf fresh = true /\
  (Z.land (cfg (setFirstWaveOffset fresh (-1)) 4 2) 0x7F = 31 /\
   getFirstWaveOffset (setFirstWaveOffset fresh (-1)) = 31).
Proof.
  split; [reflexivity|].
  apply C1_firstWaveOffset_minus_one. reflexivity.
Defined.

Lemma C3_witness :
  let g := exec (exec fresh (CsetMeasurementMode 1)) CsetSingleRes in
  reachable g /\
  (exactly_one (isSingleRes g) (isDoubleRes g) (isQuadRes g) = true /\
   (isDoubleRes (setSingleRes g) = false /\
    isQuadRes (setSingleRes g) = false) /\
   (isDoubleRes (setDoubleRes (setQuadRes g)) = true /\
    isQuadRes (setDoubleRes (setQuadRes g)) = false)).
Proof.
  intros g.
  assert (R : reachable g).
  { unfold g. apply reach_call; [apply reach_call|]; try reflexivity.
    apply reach_new. reflexivity. }
  split; [exact R|].
  apply C3_resolution_exclusive. exact R.
Defined.

Lemma C4_witness :
  wf fresh = true /\ isQuadRes fresh = true /\
  (isDoubleRes (setMeasurementMode fresh 1) = true /\
   isQuadRes (setMeasurementMode fresh 1) = false).
Proof.
  split; [reflexivity|]. split; [reflexivity|].
  apply C4_mode1_downgrades_quad; reflexivity.
Defined.

Lemma C6_witness :
  let g := exec fresh (CsetClkPreDiv 2) in
  reachable g /\
  (_conversionFactor g = factor_for g /\
   (forall raw, measConv g raw = f_mul (f_of_int raw) (factor_for g)) /\
   (forall pin status0 factor0,
       _conversionFactor (GP22_new pin status0 factor0)
       = factor_for (GP22_new pin status0 factor0)) /\
   (forall div,
       _conversionFactor (setClkPreDiv g div)
       = factor_for (setClkPreDiv g div)) /\
   (forall div,
       div = 1 \/ div = 2 \/ div = 4 ->
       getClkPreDiv (setClkPreDiv g div) = div) /\
   (forall div,
       div <> 1 -> div <> 2 -> div <> 4 ->
       cfg (setClkPreDiv g div) 0 1 = cfg g 0 1 /\
       getClkPreDiv (setClkPreDiv g div) = getClkPreDiv g /\
       _conversionFactor (setClkPreDiv g div) = _conversionFactor g)).
Proof.
  intros g.
  assert (R : reachable g).
  { unfold g. apply reach_call; [|reflexivity]. apply reach_new. reflexivity. }
  split; [exact R|].
  apply C6_conversion_factor. exact R.
Defined.

Lemma C7_witness :
  4 < 5 /\
  _config (setExpectedHits fresh CH2 5) = _config fresh /\
  3 <> 1 /\ 3 <> 2 /\ 3 <> 4 /\
  _config (setClkPreDiv fresh 3) = _config fresh.
Proof.
  split; [reflexivity|]. split.
  - apply (proj1 (C7_out_of_range_ignored fresh)). reflexivity.
  - repeat (split; [discriminate|]).
    apply (proj2 (C7_out_of_range_ignored fresh)); discriminate.
Defined.

Lemma C8_witness :
  wf fresh = true /\ 0 <= 3 <= 4 /\
  (getExpectedHits (setExpectedHits fresh CH2 3) CH2 = 3 /\
   getExpectedHits (setExpectedHits fresh CH2 3) (other CH2)
   = getExpectedHits fresh (other CH2)).
Proof.
  split; [reflexivity|].
  assert (H : 0 <= 3 <= 4) by (split; discriminate).
  split; [exact H|].
  apply C8_expected_hits_roundtrip; [reflexivity | exact H].
Defined.

Lemma C9_witness :
  is_word 0x0465 = true /\
  (let g' := readStatus fresh (0x0465 / 256) (0x0465 mod 256) in
   _status g' = 0x0465 /\
   (timedOut g' = true <-> Z.land 0x0465 0x0600 <> 0) /\
   getMeasuredHits g' CH1 = Z.shiftr (Z.land 0x0465 0x0038) 3 /\
   getMeasuredHits g' CH2 = Z.shiftr (Z.land 0x0465 0x01C0) 6 /\
   getReadPointer g' = Z.land 0x0465 0x0007 /\
   0 <= getMeasuredHits g' CH1 <= 7 /\
   0 <= getMeasuredHits g' CH2 <= 7 /\
   0 <= getReadPointer g' <= 7).
Proof.
  split; [reflexivity|].
  apply (C9_status_decode fresh 0x0465). reflexivity.
Defined.

Lemma C10_witness :
  wf fresh = true /\
  (setFirstWaveMode fresh false = setFirstWaveMode fresh (negb false) /\
   cfg (setFirstWaveMode fresh false) 3 0 = bitSet (cfg fresh 3 0) 6 /\
   Z.testbit (cfg (setFirstWaveMode fresh false) 3 0) 6 = true /\
   isFirstWaveMode (setFirstWaveMode fresh false) = true /\
   isFirstWaveMode (setFirstWaveMode fresh false) = true).
Proof.
  split; [reflexivity|].
  apply C10_setFirstWaveMode_ignores_argument. reflexivity.
Defined.

(** * The legacy single-channel driver *)

Ltac check_all_bytes b Hb :=
  cbv zeta; revert b Hb;
  match goal with
  | |- forall b, is_byte b = true -> @?p b = true =>
      exact (byte_cases p ltac:(vm_compute; reflexivity))
  end.

Lemma legacy_cfg_same (g : Legacy.GP22) (i j : nat) (v : Z) :
  Legacy.wf g = true -> (i < 7)%nat -> (j < 4)%nat ->
  Legacy.cfg (Legacy.set_cfg g i j v) i j = v.
Proof. intros W Hi Hj. now apply rd_wr_same. Qed.

Lemma legacy_cfg_other (g : Legacy.GP22) (i j i' j' : nat) (v : Z) :
  i <> i' \/ j <> j' ->
  Legacy.cfg (Legacy.set_cfg g i j v) i' j' = Legacy.cfg g i' j'.
Proof. apply rd_wr_other. Qed.

Lemma legacy_set_set (g : Legacy.GP22) (i j : nat) (v w : Z) :
  Legacy.set_cfg (Legacy.set_cfg g i j v) i j w = Legacy.set_cfg g i j w.
Proof. unfold Legacy.set_cfg. simpl. now rewrite wr_wr_same. Qed.

Lemma legacy_set_id (g : Legacy.GP22) (i j : nat) :
  Legacy.set_cfg g i j (Legacy.cfg g i j) = g.
Proof.
  unfold Legacy.set_cfg, Legacy.cfg. rewrite wr_rd_id. now destruct g.
Qed.

Lemma legacy_is_byte_cfg (g : Legacy.GP22) (i j : nat) :
  Legacy.wf g = true -> is_byte (Legacy.cfg g i j) = true.
Proof. apply is_byte_rd. Qed.

(** The two resolution setters satisfy the recursive equations of the
    source: each is its body applied to the other. *)
Lemma setDoubleRes_unfold (g : Legacy.GP22) (on : bool) :
  Legacy.setDoubleRes g on = Legacy.setDoubleRes_body Legacy.setQuadRes g on.
Proof. destruct on; reflexivity. Qed.

Lemma setQuadRes_unfold (g : Legacy.GP22) (on : bool) :
  Legacy.setQuadRes g on = Legacy.setQuadRes_body Legacy.setDoubleRes g on.
Proof. destruct on; reflexivity. Qed.

(** X25: the legacy [setSingleRes] has no effect: it reads
    [_config[6][2]] first and writes the same value back last, over
    whatever the two setters it calls have stored; the double and quad bits
    stay as they were. *)
Theorem X25_legacy_setSingleRes_no_effect (g : Legacy.GP22) (on : bool) :
  Legacy.setSingleRes g on = g /\
  Legacy.isSingleRes (Legacy.setSingleRes g on) = Legacy.isSingleRes g.
Proof.
  assert (E : Legacy.setSingleRes g on = g).
  { unfold Legacy.setSingleRes. destruct on.
    - unfold Legacy.setQuadRes, Legacy.setDoubleRes, Legacy.setQuadRes_body,
        Legacy.setDoubleRes_body.
      rewrite !legacy_set_set. apply legacy_set_id.
    - apply legacy_set_id. }
  now rewrite E.
Qed.

Lemma legacy_res_bits (b : Z) :
  is_byte b = true ->
  (Z.land (bitSet b 4) 0x10 >? 0)
  && Bool.eqb (Z.land (bitSet b 4) 0x20 >? 0) (Z.land b 0x20 >? 0)
  && (Z.land (bitSet b 5) 0x20 >? 0)
  && Bool.eqb (Z.land (bitSet b 5) 0x10 >? 0) (Z.land b 0x10 >? 0)
  && negb (Z.land (bitClear b 4) 0x10 >? 0)
  && Bool.eqb (Z.land (bitClear b 4) 0x20 >? 0) (Z.land b 0x20 >? 0)
  && negb (Z.land (bitClear b 5) 0x20 >? 0)
  && Bool.eqb (Z.land (bitClear b 5) 0x10 >? 0) (Z.land b 0x10 >? 0) = true.
Proof. intros Hb. check_all_bytes b Hb. Qed.

(** X26: in the legacy driver a resolution setter called with [true] sets
    its own bit and leaves the other one as it was: the bit cleared by the
    nested call is overwritten with the value read before the call.  Called
    with [false] it clears its own bit only.  The two bits are therefore not
    kept exclusive: from a state with quad resolution, [setDoubleRes true]
    gives a state where both read true. *)
Theorem X26_legacy_resolution_not_exclusive (g : Legacy.GP22) :
  Legacy.wf g = true ->
  (Legacy.isDoubleRes (Legacy.setDoubleRes g true) = true /\
   Legacy.isQuadRes (Legacy.setDoubleRes g true) = Legacy.isQuadRes g) /\
  (Legacy.isQuadRes (Legacy.setQuadRes g true) = true /\
   Legacy.isDoubleRes (Legacy.setQuadRes g true) = Legacy.isDoubleRes g) /\
  (Legacy.isDoubleRes (Legacy.setDoubleRes g false) = false /\
   Legacy.isQuadRes (Legacy.setDoubleRes g false) = Legacy.isQuadRes g) /\
  (Legacy.isQuadRes (Legacy.setQuadRes g false) = false /\
   Legacy.isDoubleRes (Legacy.setQuadRes g false) = Legacy.isDoubleRes g) /\
  (Legacy.isQuadRes g = true ->
   Legacy.isDoubleRes (Legacy.setDoubleRes g true) = true /\
   Legacy.isQuadRes (Legacy.setDoubleRes g true) = true).
Proof.
  intros W.
  pose proof (legacy_res_bits _ (legacy_is_byte_cfg g 6 2 W)) as B.
  repeat (apply andb_true_iff in B; destruct B as [B ?]).
  repeat match goal with K : Bool.eqb _ _ = true |- _ => apply eqb_prop in K end.
  repeat match goal with K : negb _ = true |- _ => apply negb_true_iff in K end.
  assert (D1 : Legacy.cfg (Legacy.setDoubleRes g true) 6 2
               = bitSet (Legacy.cfg g 6 2) 4).
  { unfold Legacy.setDoubleRes, Legacy.setDoubleRes_body, Legacy.setQuadRes_body.
    rewrite legacy_set_set. now apply legacy_cfg_same; [|lia|lia]. }
  assert (Q1 : Legacy.cfg (Legacy.setQuadRes g true) 6 2
               = bitSet (Legacy.cfg g 6 2) 5).
  { unfold Legacy.setQuadRes, Legacy.setDoubleRes_body, Legacy.setQuadRes_body.
    rewrite legacy_set_set. now apply legacy_cfg_same; [|lia|lia]. }
  assert (D0 : Legacy.cfg (Legacy.setDoubleRes g false) 6 2
               = bitClear (Legacy.cfg g 6 2) 4)
    by (apply legacy_cfg_same; [assumption|lia|lia]).
  assert (Q0 : Legacy.cfg (Legacy.setQuadRes g false) 6 2
               = bitClear (Legacy.cfg g 6 2) 5)
    by (apply legacy_cfg_same; [assumption|lia|lia]).
  unfold Legacy.isDoubleRes, Legacy.isQuadRes. rewrite D1, Q1, D0, Q0.
  repeat split; try assumption; congruence.
Qed.

Lemma legacy_hits_bits (b : Z) :
  is_byte b = true ->
  (uint8 (Z.land (bitClear (bitSet (bitClear b 0) 1) 2) 0x07) =? 2)
  && (uint8 (Z.land (bitClear (bitSet (bitSet b 0) 1) 2) 0x07) =? 3)
  && (uint8 (Z.land (bitSet (bitClear (bitClear b 0) 1) 2) 0x07) =? 4)
  && (Z.land (bitClear (bitSet (bitClear b 0) 1) 2) 0xF8 =? Z.land b 0xF8)
  && (Z.land (bitClear (bitSet (bitSet b 0) 1) 2) 0xF8 =? Z.land b 0xF8)
  && (Z.land (bitSet (bitClear (bitClear b 0) 1) 2) 0xF8 =? Z.land b 0xF8)
  = true.
Proof. intros Hb. check_all_bytes b Hb. Qed.

(** X27: the legacy [setExpectedHits] accepts 2, 3 and 4 only: for these
    [getExpectedHits] returns the value set and the upper five bits of
    [_config[1][1]] are kept; any other value, 0 and 1 included, leaves the
    object as it was. *)
Theorem X27_legacy_expected_hits (g : Legacy.GP22) (hits : Z) :
  Legacy.wf g = true ->
  (2 <= hits <= 4 ->
   Legacy.getExpectedHits (Legacy.setExpectedHits g hits) = hits /\
   Z.land (Legacy.cfg (Legacy.setExpectedHits g hits) 1 1) 0xF8
   = Z.land (Legacy.cfg g 1 1) 0xF8) /\
  ((hits < 2 \/ 4 < hits) -> Legacy.setExpectedHits g hits = g).
Proof.
  intros W.
  pose proof (legacy_hits_bits _ (legacy_is_byte_cfg g 1 1 W)) as B.
  repeat (apply andb_true_iff in B; destruct B as [B ?]).
  repeat match goal with K : (_ =? _) = true |- _ => apply Z.eqb_eq in K end.
  split.
  - intros Hr.
    assert (C : hits = 2 \/ hits = 3 \/ hits = 4) by lia.
    unfold Legacy.getExpectedHits, Legacy.setExpectedHits.
    destruct C as [-> | [-> | ->]]; cbv beta iota zeta;
      rewrite !legacy_cfg_same by (assumption || lia); split; assumption.
  - intros Hr. unfold Legacy.setExpectedHits.
    destruct hits as [|p|p]; try apply legacy_set_id.
    destruct p as [[p|p|]|[p|[p|p|]|]|]; try apply legacy_set_id; lia.
Qed.

Lemma legacy_firstWave_bits (b : Z) :
  is_byte b = true ->
  Z.testbit (bitSet b 6) 6 = true.
Proof. intros Hb. check_all_bytes b Hb. Qed.

(** X28: the legacy [setFirstWaveMode] stores into the wrong register: it
    takes [_config[3][0]], sets bit 6 and assigns the result to
    [_config[4][0]].  Register 3 is unchanged, so [isFirstWaveMode] returns
    what it returned before, and byte 0 of register 4 is replaced. *)
Theorem X28_legacy_setFirstWaveMode_wrong_register
    (g : Legacy.GP22) (on : bool) :
  Legacy.wf g = true ->
  let g' := Legacy.setFirstWaveMode g on in
  Legacy.isFirstWaveMode g' = Legacy.isFirstWaveMode g /\
  Legacy.cfg g' 4 0 = bitSet (Legacy.cfg g 3 0) 6 /\
  Z.testbit (Legacy.cfg g' 4 0) 6 = true /\
  (forall i j, ~ In (i, j) [(4%nat, 0%nat)] ->
               Legacy.cfg g' i j = Legacy.cfg g i j).
Proof.
  intros W g'.
  assert (E : Legacy.cfg g' 4 0 = bitSet (Legacy.cfg g 3 0) 6)
    by (apply legacy_cfg_same; [assumption|lia|lia]).
  assert (O : forall i j, ~ In (i, j) [(4%nat, 0%nat)] ->
                          Legacy.cfg g' i j = Legacy.cfg g i j).
  { intros i j N. apply legacy_cfg_other.
    destruct (Nat.eq_dec 4 i) as [<-|]; [|now left].
    destruct (Nat.eq_dec 0 j) as [<-|]; [|now right].
    exfalso. apply N. now left. }
  split; [|split; [|split]].
  - unfold Legacy.isFirstWaveMode. rewrite O; [reflexivity|].
    intros [K|[]]. discriminate K.
  - exact E.
  - rewrite E. apply legacy_firstWave_bits. now apply legacy_is_byte_cfg.
  - exact O.
Qed.

Lemma legacy_autoCalc_bits (b : Z) :
  is_byte b = true ->
  Bool.eqb (Z.land (bitSet b 0) 0x80 >? 0) (Z.land b 0x80 >? 0)
  && Bool.eqb (Z.land (bitClear b 0) 0x80 >? 0) (Z.land b 0x80 >? 0)
  && Z.testbit (bitSet b 0) 0 && negb (Z.testbit (bitClear b 0) 0) = true.
Proof. intros Hb. check_all_bytes b Hb. Qed.

(** X29: in the legacy driver [setAutoCalcOn] writes bit 0 of
    [_config[3][0]] while [isAutoCalcOn] reads bit 7: the getter returns
    what it returned before the call, whatever was set. *)
Theorem X29_legacy_autoCalc_bits_differ (g : Legacy.GP22) (on : bool) :
  Legacy.wf g = true ->
  Legacy.isAutoCalcOn (Legacy.setAutoCalcOn g on) = Legacy.isAutoCalcOn g /\
  Z.testbit (Legacy.cfg (Legacy.setAutoCalcOn g on) 3 0) 0 = on.
Proof.
  intros W.
  pose proof (legacy_autoCalc_bits _ (legacy_is_byte_cfg g 3 0 W)) as B.
  repeat (apply andb_true_iff in B; destruct B as [B ?]).
  repeat match goal with K : Bool.eqb _ _ = true |- _ => apply eqb_prop in K end.
  repeat match goal with K : negb _ = true |- _ => apply negb_true_iff in K end.
  unfold Legacy.isAutoCalcOn, Legacy.setAutoCalcOn.
  destruct on; rewrite !legacy_cfg_same by (assumption || lia); auto.
Qed.

(** ** Instances of the further properties on concrete objects *)

Local Abbreviation echo := (fun _ : Log => 0x5A).
Local Abbreviation old := (Legacy.GP22_new 10).

Lemma X1_witness :
  let g := exec fresh (CsetFirstWaveOffset (-5)) in
  reachable g /\
  (length (_config g) = 7%nat /\
   (forall i, (i < 7)%nat -> length (nth i (_config g) []) = 4%nat) /\
   (forall i j, 0 <= cfg g i j < 256) /\
   0 <= _status g < 65536).
Proof.
  intros g.
  assert (R : reachable g).
  { unfold g. apply reach_call; [|reflexivity]. apply reach_new. reflexivity. }
  split; [exact R|]. apply X1_reachable_shape. exact R.
Defined.

Lemma X2_witness :
  ~ In (6%nat, 2%nat) (touches (CsetClkPreDiv 2)) /\
  cfg (exec fresh (CsetClkPreDiv 2)) 6 2 = cfg fresh 6 2 /\
  _status (exec fresh (CsetClkPreDiv 2)) = _status fresh.
Proof.
  assert (N : ~ In (6%nat, 2%nat) (touches (CsetClkPreDiv 2))).
  { intros [K | []]. discriminate K. }
  split; [exact N|]. split.
  - apply (proj1 (X2_call_footprint fresh (CsetClkPreDiv 2))). exact N.
  - apply (proj1 (proj2 (proj2 (X2_call_footprint fresh (CsetClkPreDiv 2))))).
    discriminate.
Defined.

Lemma X3_witness :
  wf fresh = true /\ (6 < 7)%nat /\
  (length (getConfig fresh) = 7%nat /\
   0 <= reg32 fresh 6 < 2 ^ 32 /\
   field (reg32 fresh 6) 24 8 = cfg fresh 6 0 /\
   field (reg32 fresh 6) 16 8 = cfg fresh 6 1 /\
   field (reg32 fresh 6) 8 8 = cfg fresh 6 2 /\
   field (reg32 fresh 6) 0 8 = cfg fresh 6 3).
Proof.
  assert (L : (6 < 7)%nat) by (apply Nat.ltb_lt; reflexivity).
  split; [reflexivity|]. split; [exact L|].
  apply X3_getConfig_bytes; [reflexivity | exact L].
Defined.

Lemma X4_witness :
  wf fresh = true /\
  (updateConfig fresh echo [] = (tt, [] ++ config_frames fresh) /\
   length (config_frames fresh) = 35%nat).
Proof.
  split; [reflexivity|]. apply X4_updateConfig_sends_getConfig. reflexivity.
Defined.

Lemma X5_witness :
  wf fresh = true /\
  begin fresh echo []
  = (tt, [] ++ [ SPI_begin (_ssPin fresh);
                 SPI_setClockDivider (_ssPin fresh) 6;
                 SPI_setDataMode (_ssPin fresh) SPI_MODE1;
                 SPI_setBitOrder (_ssPin fresh) MSBFIRST;
                 SPI_transferred (_ssPin fresh) 0x50 SPI_LAST ]
             ++ config_frames fresh).
Proof.
  split; [reflexivity|]. apply X5_begin_pushes_config. reflexivity.
Defined.

Lemma X6_witness :
  4 <= 7 /\ readResult fresh 7 echo [] = (0, []).
Proof.
  assert (H : 4 <= 7) by discriminate.
  split; [exact H|]. apply X6_readResult_no_such_register. exact H.
Defined.

Lemma X7_witness :
  0 <= 2 < 4 /\
  (let pin := _ssPin fresh in
   let l0 := [] ++ [SPI_transferred pin (0xB0 + 2) SPI_CONTINUE] in
   let a1 := uint8 (echo l0) in
   let l1 := l0 ++ [SPI_transferred pin 0 SPI_CONTINUE] in
   let a2 := uint8 (echo l1) in
   let l2 := l1 ++ [SPI_transferred pin 0 SPI_CONTINUE] in
   let a3 := uint8 (echo l2) in
   let l3 := l2 ++ [SPI_transferred pin 0 SPI_CONTINUE] in
   let a4 := uint8 (echo l3) in
   let v := fst (readResult fresh 2 echo []) in
   snd (readResult fresh 2 echo [])
   = l3 ++ [SPI_transferred pin 0 SPI_LAST] /\
   v mod 2 ^ 32 = a1 * 2 ^ 24 + a2 * 2 ^ 16 + a3 * 2 ^ 8 + a4 /\
   - 2 ^ 31 <= v < 2 ^ 31 /\
   (0 <= v <-> a1 < 128)).
Proof.
  assert (H : 0 <= 2 < 4) by (split; [discriminate | reflexivity]).
  split; [exact H|]. apply (X7_readResult_value fresh 2 echo []). exact H.
Defined.

Lemma X9_witness :
  wf fresh = true /\
  exists new,
    snd (exec_bus fresh BupdateConfig echo []) = [] ++ new /\
    on_pin (_ssPin fresh) new = true /\
    (released [] = true -> released ([] ++ new) = true) /\
    _ssPin (fst (exec_bus fresh BupdateConfig echo [])) = _ssPin fresh /\
    ((forall i, BupdateConfig <> BupdateALUInstruction i) ->
     _config (fst (exec_bus fresh BupdateConfig echo [])) = _config fresh).
Proof.
  split; [reflexivity|].
  apply (X9_bus_calls_framed fresh BupdateConfig echo []). reflexivity.
Defined.

Lemma X10_witness :
  wf fresh = true /\ 0 <= 0x25 < 256 /\
  (getHit1Op (defineHit1Op fresh 0x25) = 0x25 mod 16 /\
   getHit2Op (defineHit1Op fresh 0x25) = (getHit2Op fresh + 0x25 / 16) mod 16 /\
   (0x25 < 16 ->
    getHit1Op (defineHit1Op fresh 0x25) = 0x25 /\
    getHit2Op (defineHit1Op fresh 0x25) = getHit2Op fresh)).
Proof.
  assert (H : 0 <= 0x25 < 256) by (split; [discriminate | reflexivity]).
  split; [reflexivity|]. split; [exact H|].
  apply X10_defineHit1Op_fields; [reflexivity | exact H].
Defined.

Lemma X11_witness :
  wf fresh = true /\ 0 <= 0x25 < 256 /\
  (getHit2Op (defineHit2Op fresh 0x25) = 0x25 mod 16 /\
   getHit1Op (defineHit2Op fresh 0x25) = getHit1Op fresh /\
   (0x25 < 16 -> getHit2Op (defineHit2Op fresh 0x25) = 0x25)).
Proof.
  assert (H : 0 <= 0x25 < 256) by (split; [discriminate | reflexivity]).
  split; [reflexivity|]. split; [exact H|].
  apply X11_defineHit2Op_fields; [reflexivity | exact H].
Defined.

Lemma X12_witness :
  wf fresh = true /\ 0 <= 9 < 16 /\ 0 <= 5 < 16 /\
  defineHit1Op (defineHit2Op fresh 5) 9 = defineHit2Op (defineHit1Op fresh 9) 5.
Proof.
  assert (H1 : 0 <= 9 < 16) by (split; [discriminate | reflexivity]).
  assert (H2 : 0 <= 5 < 16) by (split; [discriminate | reflexivity]).
  split; [reflexivity|]. split; [exact H1|]. split; [exact H2|].
  apply X12_hit_ops_commute; [reflexivity | exact H1 | exact H2].
Defined.

Lemma X13_witness :
  let instruction := mkALUInstruction 1 9 5 in
  wf fresh = true /\
  0 <= hit1Op instruction < 16 /\ 0 <= hit2Op instruction < 16 /\
  (let g' := fst (updateALUInstruction_bus fresh instruction echo []) in
   g' = updateALUInstruction fresh instruction /\
   getHit1Op g' = hit1Op instruction /\
   getHit2Op g' = hit2Op instruction /\
   (forall i j, ~ In (i, j) [(1%nat, 0%nat)] -> cfg g' i j = cfg fresh i j) /\
   snd (updateALUInstruction_bus fresh instruction echo [])
   = [] ++ write_frame (_ssPin fresh) 0x81 (reg32 g' 1)).
Proof.
  intros instruction.
  assert (H1 : 0 <= hit1Op instruction < 16)
    by (split; [discriminate | reflexivity]).
  assert (H2 : 0 <= hit2Op instruction < 16)
    by (split; [discriminate | reflexivity]).
  split; [reflexivity|]. split; [exact H1|]. split; [exact H2|].
  apply (X13_updateALUInstruction_frame fresh instruction echo []);
    [reflexivity | exact H1 | exact H2].
Defined.

Lemma X14_witness :
  wf fresh = true /\ 0 <= 1 <= 1 /\ 0 <= 0 <= 1 /\ 0 <= 1 <= 1 /\
  (let g' := setEdgeSensitivity fresh 1 0 1 in
   Z.land (cfg g' 0 2) 0x07 = 1 + 2 * 0 + 4 * 1 /\
   Z.land (cfg g' 0 2) 0xF8 = Z.land (cfg fresh 0 2) 0xF8 /\
   getMeasurementMode g' = getMeasurementMode fresh /\
   cfg g' 2 0 = cfg fresh 2 0).
Proof.
  assert (H1 : 0 <= 1 <= 1) by (split; discriminate).
  assert (H0 : 0 <= 0 <= 1) by (split; discriminate).
  split; [reflexivity|]. split; [exact H1|]. split; [exact H0|].
  split; [exact H1|].
  apply (X14_setEdgeSensitivity_single_edge fresh 1 0 1);
    [reflexivity | exact H1 | exact H0 | exact H1].
Defined.

Lemma X15_witness :
  let g := setEdgeSensitivity fresh 0 2 0 in
  wf g = true /\
  (let g' := setEdgeSensitivity g 0 0 0 in
   (forall n, Z.testbit (cfg g 2 0) n = true ->
              Z.testbit (cfg g' 2 0) n = true) /\
   (0 = 2 -> Z.testbit (cfg g' 2 0) 3 = true) /\
   (0 = 2 -> Z.testbit (cfg g' 2 0) 4 = true)).
Proof.
  intros g. split; [reflexivity|].
  apply (X15_setEdgeSensitivity_both_edges_sticky g 0 0 0). reflexivity.
Defined.

Lemma X16_witness :
  1 < 2 /\ 2 < 3 /\ 2 < 200 /\ setEdgeSensitivity fresh 2 3 200 = fresh.
Proof.
  assert (H0 : 1 < 2) by reflexivity.
  assert (H1 : 2 < 3) by reflexivity.
  assert (H2 : 2 < 200) by reflexivity.
  split; [exact H0|]. split; [exact H1|]. split; [exact H2|].
  apply X16_setEdgeSensitivity_invalid_ignored; assumption.
Defined.

Lemma X17_witness :
  wf fresh = true /\
  (isAutoCalcOn (setAutoCalcOn fresh true) = true /\
   isFirstWaveMode (setAutoCalcOn fresh true) = isFirstWaveMode fresh /\
   isAutoCalcOn (setFirstWaveMode fresh true) = isAutoCalcOn fresh).
Proof.
  split; [reflexivity|]. apply X17_autoCalc_roundtrip. reflexivity.
Defined.

Lemma X18_witness :
  wf fresh = true /\
  (isPulseWidthMeasOn (setPulseWidthMeasOn fresh false) = false /\
   Z.land (cfg (setPulseWidthMeasOn fresh false) 4 1) 0xFE
   = Z.land (cfg fresh 4 1) 0xFE).
Proof.
  split; [reflexivity|]. apply X18_pulseWidth_roundtrip. reflexivity.
Defined.

Lemma X19_witness :
  wf fresh = true /\
  (isFirstWaveRisingEdge (setFirstWaveRisingEdge fresh true) = negb true /\
   Z.testbit (cfg (setFirstWaveRisingEdge fresh true) 4 2) 7 = negb true /\
   Z.land (cfg (setFirstWaveRisingEdge fresh true) 4 2) 0x7F
   = Z.land (cfg fresh 4 2) 0x7F).
Proof.
  split; [reflexivity|]. apply X19_risingEdge_getter_inverted. reflexivity.
Defined.

Lemma X20_witness :
  wf fresh = true /\ -128 <= -30 < 128 /\
  (isFirstWaveRisingEdge (setFirstWaveOffset fresh (-30))
   = isFirstWaveRisingEdge fresh /\
   getFirstWaveOffset (setFirstWaveRisingEdge fresh false)
   = getFirstWaveOffset fresh).
Proof.
  assert (H : -128 <= -30 < 128) by (split; [discriminate | reflexivity]).
  split; [reflexivity|]. split; [exact H|].
  apply X20_offset_and_edge_independent; [reflexivity | exact H].
Defined.


Lemma X22_witness :
  wf fresh = true /\
  (getMeasurementMode (setMeasurementMode fresh 1) = 0 /\
   getMeasurementMode (setMeasurementMode fresh 2) = 1 /\
   (3 <> 1 -> 3 <> 2 -> setMeasurementMode fresh 3 = fresh) /\
   Z.land (cfg (setMeasurementMode fresh 3) 0 2) 0xF7
   = Z.land (cfg fresh 0 2) 0xF7).
Proof.
  split; [reflexivity|]. apply X22_measurementMode_bit. reflexivity.
Defined.

Lemma X26_witness :
  Legacy.wf old = true /\
  Legacy.isQuadRes old = true /\
  Legacy.isDoubleRes (Legacy.setDoubleRes old true) = true /\
  Legacy.isQuadRes (Legacy.setDoubleRes old true) = true.
Proof.
  split; [reflexivity|]. split; [reflexivity|].
  apply (proj2 (proj2 (proj2 (proj2
           (X26_legacy_resolution_not_exclusive old eq_refl))))).
  reflexivity.
Defined.

Lemma X27_witness :
  Legacy.wf old = true /\ 2 <= 3 <= 4 /\
  Legacy.getExpectedHits (Legacy.setExpectedHits old 3) = 3 /\
  (1 < 2 \/ 4 < 1) /\
  Legacy.setExpectedHits old 1 = old.
Proof.
  assert (H : 2 <= 3 <= 4) by (split; discriminate).
  assert (K : 1 < 2 \/ 4 < 1) by (left; reflexivity).
  split; [reflexivity|]. split; [exact H|]. split.
  - apply (proj1 (X27_legacy_expected_hits old 3 eq_refl)). exact H.
  - split; [exact K|].
    apply (proj2 (X27_legacy_expected_hits old 1 eq_refl)). exact K.
Defined.

Lemma X28_witness :
  Legacy.wf old = true /\
  (let g' := Legacy.setFirstWaveMode old true in
   Legacy.isFirstWaveMode g' = Legacy.isFirstWaveMode old /\
   Legacy.cfg g' 4 0 = bitSet (Legacy.cfg old 3 0) 6 /\
   Z.testbit (Legacy.cfg g' 4 0) 6 = true /\
   (forall i j, ~ In (i, j) [(4%nat, 0%nat)] ->
                Legacy.cfg g' i j = Legacy.cfg old i j)).
Proof.
  split; [reflexivity|].
  apply (X28_legacy_setFirstWaveMode_wrong_register old true). reflexivity.
Defined.

Lemma X29_witness :
  Legacy.wf old = true /\
  (Legacy.isAutoCalcOn (Legacy.setAutoCalcOn old true)
   = Legacy.isAutoCalcOn old /\
   Z.testbit (Legacy.cfg (Legacy.setAutoCalcOn old true) 3 0) 0 = true).
Proof.
  split; [reflexivity|]. apply X29_legacy_autoCalc_bits_differ. reflexivity.
Defined.

Lemma X23_witness :
  let g := setSingleRes fresh in
  let calls := [CsetMeasurementMode 2; CsetQuadRes; CsetMeasurementMode 1] in
  wf g = true /\ isQuadRes g = false /\
  isQuadRes (fold_left exec calls g) = false.
Proof.
  intros g calls. split; [reflexivity|]. split; [reflexivity|].
  apply X23_quad_never_switched_on; reflexivity.
Defined.

Lemma X24_witness :
  wf fresh = true /\
  ((getClkPreDiv fresh = 1 \/ getClkPreDiv fresh = 2 \/ getClkPreDiv fresh = 4) /\
   (Z.land (cfg fresh 0 1) 0x30 = 0x30 -> getClkPreDiv fresh = 4)).
Proof.
  split; [reflexivity|]. apply X24_getClkPreDiv_values. reflexivity.
Defined.
